(** * Execution runner of app/streamlit_app.py

    A shallow embedding of the local-execution part of the application
    ([_which], [run_python], [run_cpp], [run_java], [run_code]) together
    with the small part of the Python runtime these functions stand on:
    text, [re.search] for the one pattern the code uses, [pathlib] joins,
    [tempfile.TemporaryDirectory], [time.perf_counter] and
    [subprocess.run].

    Python [str] values are lists of code points.  The host (search path,
    platform, what a started process does) is a record the runners are
    parameterised by; the state they thread is a [world] holding the file
    system, the clock and a trace of the effects performed so far. *)

From Stdlib Require Import String Ascii QArith Qcanon.
From stdpp Require Import base numbers option list gmap.

Set Default Proof Using "Type".

(** ** Text *)

Abbreviation char := N.
Abbreviation str := (list N).

(** A string literal of the source, as code points. *)
Definition lit (s : string) : str := map N_of_ascii (list_ascii_of_string s).
Arguments lit s%_string.

(** The interpreter's Unicode tables, for the code points the source's
    pattern does not spell out itself (those from 128 on). *)
Record unicode_db := {
  uni_isspace : char → bool;
  uni_isalnum : char → bool
}.

Module Re.

(** Character classes of a [str] pattern. *)
Section Classes.
Variable U : unicode_db.

Definition in_range (lo hi c : char) : bool := (lo <=? c)%N && (c <=? hi)%N.

(** [\s]: the ASCII white space of [str.isspace] (tab to carriage
    return, the four separators FS GS RS US, space), and the table
    beyond ASCII. *)
Definition is_space (c : char) : bool :=
  if (c <? 128)%N
  then in_range 9 13 c || in_range 28 31 c || (c =? 32)%N
  else uni_isspace U c.

(** [A-Za-z_] *)
Definition is_ident_start (c : char) : bool :=
  in_range 65 90 c || in_range 97 122 c || (c =? 95)%N.

(** [\w]: alphanumeric or underscore. *)
Definition is_word (c : char) : bool :=
  if (c <? 128)%N
  then in_range 48 57 c || is_ident_start c
  else uni_isalnum U c.
End Classes.

(** The fragment of the pattern language that the source's pattern is
    written in: literals, one-character sets, greedy repetition of a set,
    sequencing, and the capturing group number 1. *)
Inductive regex :=
| Chr (c : char)
| Any (p : char → bool)
| Star (p : char → bool)
| Plus (p : char → bool)
| Cat (r1 r2 : regex)
| Group (r : regex).

(** Greedy repetition with backtracking: take one more character when the
    set allows it, and fall back to stopping here when the rest of the
    pattern fails after that. *)
Fixpoint greedy {A} (p : char → bool) (k : str → option A) (s : str) : option A :=
  match s with
  | c :: s' =>
      if p c then
        match greedy p k s' with
        | Some a => Some a
        | None => k s
        end
      else k s
  | [] => k s
  end.

(** The matcher, in continuation-passing style: [k] is the rest of the
    pattern, given the unread text and the text of group 1 so far. *)
Fixpoint rmatch {A} (r : regex) (s : str) (g : option str)
    (k : str → option str → option A) : option A :=
  match r with
  | Chr c =>
      match s with
      | c' :: s' => if (c =? c')%N then k s' g else None
      | [] => None
      end
  | Any p =>
      match s with
      | c' :: s' => if p c' then k s' g else None
      | [] => None
      end
  | Star p => greedy p (λ s', k s' g) s
  | Plus p =>
      match s with
      | c' :: s' => if p c' then greedy p (λ s'', k s'' g) s' else None
      | [] => None
      end
  | Cat r1 r2 => rmatch r1 s g (λ s1 g1, rmatch r2 s1 g1 k)
  | Group r1 =>
      rmatch r1 s g (λ s1 _, k s1 (Some (take (length s - length s1) s)))
  end.

(** [re.match]: a match that begins at the first character; the result
    is [group(1)] of the match object. *)
Definition match_ (r : regex) (s : str) : option (option str) :=
  rmatch r s None (λ _ g, Some g).

(** [re.search]: the match at the leftmost position that has one. *)
Fixpoint search (r : regex) (s : str) : option (option str) :=
  match match_ r s with
  | Some g => Some g
  | None =>
      match s with
      | [] => None
      | _ :: s' => search r s'
      end
  end.

(** A run of literal characters followed by [r]. *)
Definition chars (l : str) (r : regex) : regex := foldr (λ c, Cat (Chr c)) r l.

End Re.

(** ** The class name of a Java source *)

Section ClassName.
Variable U : unicode_db.

(** The pattern of [run_java]: the word public, white space, the word
    class, white space, and as group 1 an identifier: one of A-Z, a-z or
    underscore, then word characters for as long as there are any. *)
Definition public_class_re : Re.regex :=
  Re.chars (lit "public")
    (Re.Cat (Re.Plus (Re.is_space U))
       (Re.chars (lit "class")
          (Re.Cat (Re.Plus (Re.is_space U))
             (Re.Group (Re.Cat (Re.Any Re.is_ident_start) (Re.Star (Re.is_word U))))))).

(** [m = re.search(..., code); cname = m.group(1) if m else "Main"].
    Group 1 lies on every path through the pattern, so a match always
    sets it ([search_public_class_group] below); the middle case is
    there for totality only. *)
Definition class_name (code : str) : str :=
  match Re.search public_class_re code with
  | Some (Some name) => name
  | Some None => []
  | None => lit "Main"
  end.
End ClassName.

(** The tables of an interpreter that knows ASCII only; used in examples. *)
Definition ascii_only : unicode_db :=
  {| uni_isspace := λ _, false; uni_isalnum := λ _, false |}.

(** ** Processes, the world and the host *)

(** The arguments of one [subprocess.run] call.  Every call of the source
    passes [capture_output=True, text=True]; what varies is the command
    line, the working directory and the timeout. *)
Record proc_call := {
  argv : list str;
  capture_output : bool;
  text : bool;
  cwd : option str;
  timeout : option Z
}.

Record CompletedProcess := {
  returncode : Z;
  p_stdout : str;
  p_stderr : str
}.

(** What a started program does when nobody interrupts it: it ends after
    some time with an exit status and its two streams, or it never ends.
    In either case it may leave files behind.  The streams are captured
    as bytes and then decoded, strictly, with the encoding of the locale:
    [Exits] holds the text they decode to, [ExitsBinary] is a program
    that ends having written bytes that are no text in that encoding.
    [NotFound] is a command line the operating system cannot start. *)
Inductive behaviour :=
| Exits (elapsed : Qc) (p : CompletedProcess) (wrote : list (str * str))
| ExitsBinary (elapsed : Qc) (status : Z) (wrote : list (str * str))
| Hangs (wrote : list (str * str))
| NotFound.

(** What a runner does to its surroundings, in the order it does it.
    [WriteText] is a file opened for writing, which then holds [content];
    a process is [Killed] at its timeout, and [Abandoned] when it is
    killed because the wait for it could not be set up. *)
Inductive event :=
| Mkdtemp (td : str)
| WriteText (path content : str)
| Started (c : proc_call)
| Exited (c : proc_call) (elapsed : Qc) (p : CompletedProcess)
| ExitedBinary (c : proc_call) (elapsed : Qc) (status : Z)
| Killed (c : proc_call)
| Abandoned (c : proc_call)
| Rmtree (td : str).

(** The file system (regular files with their text, and directories), the
    reading of the monotonic clock in seconds, and what has happened so
    far. *)
Record world := {
  files : gmap str str;
  dirs : gset str;
  now : Qc;
  trace : list event
}.

(** The machine the application runs on: [os.name], [sys.executable]
    ([None] or empty when the interpreter does not know it), the search
    path as [shutil.which] sees it, the name [tempfile] picks for the next
    directory, the file names the file system refuses as too long (names
    of up to 14 characters it always takes), the longest timeout, in
    seconds, the wait for a process accepts (2147483 where [poll] counts
    milliseconds in a C int), and the behaviour of every program that can
    be started, given the files it finds.  The runners are proved correct
    for every host; nothing is assumed about these fields.  Creating the
    temporary directory is taken to succeed. *)
Record host := {
  unicode : unicode_db;
  os_name : str;
  sys_executable : option str;
  shutil_which : str → option str;
  mkdtemp : world → str;
  name_too_long : str → bool;
  timeout_max : Z;
  behave : proc_call → gmap str str → behaviour
}.

(** The exceptions that can leave the modelled calls.  [OSError] is the
    one of a command line that cannot be started, [NameTooLong] the
    OSError of [open] for a file name over the limit. *)
Inductive exn :=
| TimeoutExpired (cmd : list str) (timeout : Z)
| OSError (cmd : list str)
| NameTooLong (path : str)
| UnicodeEncodeError
| UnicodeDecodeError
| OverflowError.

(** A call returns a value, raises, or never hands control back. *)
Inductive reply (A : Type) :=
| Val (a : A)
| Exc (e : exn)
| Never.
Arguments Val {A} a.
Arguments Exc {A} e.
Arguments Never {A}.

Definition io (A : Type) : Type := world → reply A * world.

#[export] Instance io_ret : MRet io := λ A a w, (Val a, w).

#[export] Instance io_bind : MBind io := λ A B f m w,
  match m w with
  | (Val a, w') => f a w'
  | (Exc e, w') => (Exc e, w')
  | (Never, w') => (Never, w')
  end.

(** [try: body  except subprocess.TimeoutExpired: handler] *)
Definition try_except_TimeoutExpired {A} (body handler : io A) : io A := λ w,
  match body w with
  | (Exc (TimeoutExpired _ _), w') => handler w'
  | r => r
  end.

Definition log (e : event) (w : world) : world :=
  {| files := files w; dirs := dirs w; now := now w; trace := trace w ++ [e] |}.

Definition tick (d : Qc) (w : world) : world :=
  {| files := files w; dirs := dirs w; now := (now w + d)%Qc; trace := trace w |}.

Definition put_files (l : list (str * str)) (w : world) : world :=
  {| files := foldl (λ m kv, <[kv.1 := kv.2]> m) (files w) l;
     dirs := dirs w; now := now w; trace := trace w |}.

(** The events a computation adds to the trace when started in [w]. *)
Definition new_events {A} (m : io A) (w : world) : list event :=
  drop (length (trace w)) (trace (m w).2).

Definition started (l : list event) : list proc_call :=
  omap (λ e, match e with Started c => Some c | _ => None end) l.


(** The dictionary every runner returns: its five keys. *)
Record result := {
  ok : bool;
  stdout : str;
  stderr : str;
  time_s : Qc;
  compile_time_s : Qc
}.

Section Runtime.
Variable H : host.

(** *** pathlib *)

Definition nt : bool := bool_decide (os_name H = lit "nt").

Definition sep : char := if nt then 92%N else 47%N.

Definition is_sep (c : char) : bool :=
  (c =? 47)%N || (nt && (c =? 92)%N).

(** [str(Path(td) / name)] for the directory names [mkdtemp] returns
    (absolute, normalised, no separator at the end) and a plain [name]. *)
Definition path_join (td name : str) : str := td ++ sep :: name.

(** [Path(p).name]: what follows the last separator. *)
Fixpoint path_name (p : str) : str :=
  match p with
  | [] => []
  | c :: p' => if existsb is_sep p then path_name p' else p
  end.

(** [str.rfind]: the index of the last occurrence. *)
Fixpoint rfind (x : char) (s : str) : option nat :=
  match s with
  | [] => None
  | c :: s' =>
      match rfind x s' with
      | Some i => Some (S i)
      | None => if (c =? x)%N then Some 0 else None
      end
  end.

(** [Path(p).stem]: the name without its last suffix; a dot that begins
    or ends the name does not start a suffix. *)
Definition path_stem (p : str) : str :=
  let name := path_name p in
  match rfind 46 name with
  | Some i => if (0 <? i) && (i <? length name - 1) then take i name else name
  | None => name
  end.

(** [p] lies below the directory [td]. *)
Definition below (td p : str) : Prop :=
  ∃ c rest, is_sep c = true ∧ p = td ++ c :: rest.

#[local] Instance below_dec td p : Decision (below td p).
Proof.
  refine (cast_if (decide (td `prefix_of` p ∧
                           from_option is_sep false (head (drop (length td) p)) = true)));
    unfold below.
  - destruct a as [[k ->] Hs]. rewrite drop_app_length in Hs.
    destruct k as [|c rest]; [discriminate|]. by exists c, rest.
  - intros (c & rest & Hc & ->). apply n. split; [by eexists|].
    by rewrite drop_app_length.
Defined.

(** *** tempfile, time, subprocess *)

Definition rmtree (td : str) (w : world) : world :=
  {| files := filter (λ kv, ¬ below td kv.1) (files w);
     dirs := filter (λ d, d ≠ td ∧ ¬ below td d) (dirs w);
     now := now w;
     trace := trace w ++ [Rmtree td] |}.

(** [with tempfile.TemporaryDirectory() as td: body]: the directory is
    removed with all it holds whenever control leaves the body, by return
    or by exception. *)
Definition TemporaryDirectory {A} (body : str → io A) : io A := λ w,
  let td := mkdtemp H w in
  let w1 := log (Mkdtemp td)
              {| files := files w; dirs := {[td]} ∪ dirs w;
                 now := now w; trace := trace w |} in
  match body td w1 with
  | (Never, w2) => (Never, w2)
  | (r, w2) => (r, rmtree td w2)
  end.

(** A lone surrogate has no UTF-8 encoding. *)
Definition is_surrogate (c : char) : bool := (55296 <=? c)%N && (c <=? 57343)%N.

(** The file system refuses a name: it is over the limit. *)
Definition name_refused (name : str) : bool :=
  (14 <? length name) && name_too_long H name.

(** [Path.write_text(content, encoding="utf-8")]: the file is opened for
    writing, which creates it or empties it, and then the text is encoded
    and written; a text that cannot be encoded leaves the file empty. *)
Definition write_text (p content : str) : io unit := λ w,
  if name_refused (path_name p) then (Exc (NameTooLong p), w)
  else if existsb is_surrogate content
  then (Exc UnicodeEncodeError, log (WriteText p []) (put_files [(p, [])] w))
  else (Val (), log (WriteText p content) (put_files [(p, content)] w)).

(** [time.perf_counter()].  The clock moves while a process runs; the two
    readings the source takes around a [subprocess.run] differ by the time
    that call took. *)
Definition perf_counter : io Qc := λ w, (Val (now w), w).

(** [subprocess.run] with [capture_output=True, text=True]: start the
    program and wait for it; with a timeout, kill it and raise once the
    timeout has passed.  A timeout over what the wait accepts makes the
    first wait raise OverflowError, upon which the process is killed.
    The output of a process that ended is decoded, which raises when it
    is no text; what a killed process had written is not decoded (so it
    is where [os.name] is posix; the model takes no other course). *)
Definition subprocess_run (c : proc_call) : io CompletedProcess := λ w,
  let finished d p fx :=
    (Val p, log (Exited c d p) (tick d (put_files fx (log (Started c) w)))) in
  let undecodable d rc fx :=
    (Exc UnicodeDecodeError,
     log (ExitedBinary c d rc) (tick d (put_files fx (log (Started c) w)))) in
  let killed t fx :=
    (Exc (TimeoutExpired (argv c) t),
     log (Killed c) (tick (Qc_of_Z t) (put_files fx (log (Started c) w)))) in
  let abandoned := (Exc OverflowError, log (Abandoned c) (log (Started c) w)) in
  match behave H c (files w) with
  | NotFound => (Exc (OSError (argv c)), w)
  | Exits d p fx =>
      match timeout c with
      | Some t =>
          if decide (timeout_max H < t)%Z then abandoned
          else if decide (d ≤ Qc_of_Z t)%Qc then finished d p fx else killed t fx
      | None => finished d p fx
      end
  | ExitsBinary d rc fx =>
      match timeout c with
      | Some t =>
          if decide (timeout_max H < t)%Z then abandoned
          else if decide (d ≤ Qc_of_Z t)%Qc then undecodable d rc fx else killed t fx
      | None => undecodable d rc fx
      end
  | Hangs fx =>
      match timeout c with
      | Some t => if decide (timeout_max H < t)%Z then abandoned else killed t fx
      | None => (Never, put_files fx (log (Started c) w))
      end
  end.

Definition run_args (args : list str) (dir : option str) (tmo : option Z) : proc_call :=
  {| argv := args; capture_output := true; text := true; cwd := dir; timeout := tmo |}.

(** *** The runners *)

Definition _which (cmd : str) : bool :=
  match shutil_which H cmd with Some _ => true | None => false end.

(** [sys.executable or "python"] *)
Definition python_exe : str :=
  match sys_executable H with
  | Some (c :: s) => c :: s
  | _ => lit "python"
  end.

Definition run_python (code : str) (timeout_s : Z) : io result :=
  TemporaryDirectory (λ td,
    let f := path_join td (lit "main.py") in
    write_text f code;;
    t0 ← perf_counter;
    try_except_TimeoutExpired
      (p ← subprocess_run (run_args [python_exe; lit "-u"; f] None (Some timeout_s));
       t1 ← perf_counter;
       mret {| ok := (returncode p =? 0)%Z; stdout := p_stdout p; stderr := p_stderr p;
               time_s := (t1 - t0)%Qc; compile_time_s := 0%Qc |})
      (mret {| ok := false; stdout := []; stderr := lit "Timeout";
               time_s := Qc_of_Z timeout_s; compile_time_s := 0%Qc |})).

Definition run_cpp (code : str) (timeout_s : Z) : io result :=
  if negb (_which (lit "g++")) then
    mret {| ok := false; stdout := []; stderr := lit "g++ not found on PATH.";
            time_s := 0%Qc; compile_time_s := 0%Qc |}
  else
    TemporaryDirectory (λ td,
      let cpp := path_join td (lit "main.cpp") in
      let exe := path_join td (if nt then lit "main.exe" else lit "main") in
      write_text cpp code;;
      ct0 ← perf_counter;
      comp ← subprocess_run
               (run_args [lit "g++"; lit "-O2"; lit "-std=c++17"; cpp; lit "-o"; exe]
                  None None);
      ct1 ← perf_counter;
      let ct := (ct1 - ct0)%Qc in
      if negb (returncode comp =? 0)%Z then
        mret {| ok := false; stdout := p_stdout comp; stderr := p_stderr comp;
                time_s := 0%Qc; compile_time_s := ct |}
      else
        t0 ← perf_counter;
        run ← subprocess_run (run_args [exe] None (Some timeout_s));
        t1 ← perf_counter;
        mret {| ok := (returncode run =? 0)%Z; stdout := p_stdout run;
                stderr := p_stderr run;
                time_s := (t1 - t0)%Qc; compile_time_s := ct |}).

Definition run_java (code : str) (timeout_s : Z) : io result :=
  if negb (_which (lit "javac") && _which (lit "java")) then
    mret {| ok := false; stdout := []; stderr := lit "javac/java not found on PATH.";
            time_s := 0%Qc; compile_time_s := 0%Qc |}
  else
    let cname := class_name (unicode H) code in
    TemporaryDirectory (λ td,
      let src := path_join td (cname ++ lit ".java") in
      write_text src code;;
      ct0 ← perf_counter;
      comp ← subprocess_run (run_args [lit "javac"; src] (Some td) None);
      ct1 ← perf_counter;
      let ct := (ct1 - ct0)%Qc in
      if negb (returncode comp =? 0)%Z then
        mret {| ok := false; stdout := p_stdout comp; stderr := p_stderr comp;
                time_s := 0%Qc; compile_time_s := ct |}
      else
        t0 ← perf_counter;
        run ← subprocess_run
                (run_args [lit "java"; lit "-cp"; td; cname] None (Some timeout_s));
        t1 ← perf_counter;
        mret {| ok := (returncode run =? 0)%Z; stdout := p_stdout run;
                stderr := p_stderr run;
                time_s := (t1 - t0)%Qc; compile_time_s := ct |}).

Definition run_code (lang code : str) (timeout_s : Z) : io result :=
  if bool_decide (lang = lit "Python") then run_python code timeout_s
  else if bool_decide (lang = lit "C++") then run_cpp code timeout_s
  else if bool_decide (lang = lit "Java") then run_java code timeout_s
  else mret {| ok := false; stdout := []; stderr := lit "Unsupported: " ++ lang;
               time_s := 0%Qc; compile_time_s := 0%Qc |}.

End Runtime.

Definition LANGS : list str := [lit "Python"; lit "C++"; lit "Java"].

(** * Vocabulary of the properties *)

(** ** The pattern finds the first public-class declaration *)

(** What the words "first match of a public-class declaration" mean,
    stated on the text alone, without the matcher. *)
Section ClassNameSpec.
Variable U : unicode_db.

Definition blank (ws : str) : Prop :=
  ws ≠ [] ∧ Forall (λ c, Re.is_space U c = true) ws.

Definition identifier (n : str) : Prop :=
  ∃ c cs, n = c :: cs ∧ Re.is_ident_start c = true
          ∧ Forall (λ x, Re.is_word U x = true) cs.

(** The identifier is taken as far as it goes. *)
Definition stops (rest : str) : Prop :=
  match rest with
  | [] => True
  | c :: _ => Re.is_word U c = false
  end.

(** [s] begins with a public-class declaration of [name]. *)
Definition declares (s name : str) : Prop :=
  ∃ ws1 ws2 rest,
    s = lit "public" ++ ws1 ++ lit "class" ++ ws2 ++ name ++ rest
    ∧ blank ws1 ∧ blank ws2 ∧ identifier name ∧ stops rest.

Inductive first_public_class (code : str) : str → Prop :=
| fpc_found pre s name :
    code = pre ++ s →
    declares s name →
    (∀ pre' s' n', code = pre' ++ s' → length pre' < length pre → ¬ declares s' n') →
    first_public_class code name
| fpc_fallback :
    (∀ pre s n, code = pre ++ s → ¬ declares s n) →
    first_public_class code (lit "Main").
End ClassNameSpec.

(** A deterministic scanner for one declaration; the matcher is shown to
    compute the same thing, and the scanner to decide [declares]. *)
Section Scanner.
Variable U : unicode_db.

Fixpoint strip (l s : str) : option str :=
  match l, s with
  | [], _ => Some s
  | c :: l', c' :: s' => if (c =? c')%N then strip l' s' else None
  | _ :: _, [] => None
  end.

Fixpoint take_while (p : char → bool) (s : str) : str :=
  match s with
  | c :: s' => if p c then c :: take_while p s' else []
  | [] => []
  end.

Fixpoint drop_while (p : char → bool) (s : str) : str :=
  match s with
  | c :: s' => if p c then drop_while p s' else s
  | [] => []
  end.

Definition blanks (s : str) : option str :=
  match s with
  | c :: s' => if Re.is_space U c then Some (drop_while (Re.is_space U) s') else None
  | [] => None
  end.

Definition ident (s : str) : option str :=
  match s with
  | c :: s' =>
      if Re.is_ident_start c then Some (c :: take_while (Re.is_word U) s') else None
  | [] => None
  end.

Definition scan (s : str) : option str :=
  s1 ← strip (lit "public") s;
  s2 ← blanks s1;
  s3 ← strip (lit "class") s2;
  s4 ← blanks s3;
  ident s4.
End Scanner.

(** ** Phases *)

(** C++ and Java have a compile phase, which comes first; the run phase is
    the process started after it, and for Python the only one. *)
Definition compile_call (lang : str) (evs : list event) : option proc_call :=
  if bool_decide (lang = lit "Python") then None else started evs !! 0.

Definition run_call (lang : str) (evs : list event) : option proc_call :=
  started evs !! (if bool_decide (lang = lit "Python") then 0 else 1).

(** ** The runs a runner can make *)

Definition completed_result (p : CompletedProcess) (d ct : Qc) : result :=
  {| ok := (returncode p =? 0)%Z; stdout := p_stdout p; stderr := p_stderr p;
     time_s := d; compile_time_s := ct |}.

Definition compile_error_result (p : CompletedProcess) (ct : Qc) : result :=
  {| ok := false; stdout := p_stdout p; stderr := p_stderr p;
     time_s := 0%Qc; compile_time_s := ct |}.

Definition timeout_result (t : Z) (ct : Qc) : result :=
  {| ok := false; stdout := []; stderr := lit "Timeout";
     time_s := Qc_of_Z t; compile_time_s := ct |}.

Definition missing_result (msg : str) : result :=
  {| ok := false; stdout := []; stderr := msg; time_s := 0%Qc; compile_time_s := 0%Qc |}.

(** ** What a request is to do *)

(** The file the source goes to, the compile call and the run call of a
    request, as the specification lists them, and what the host must
    offer for them to be reached. *)
Section Plan.
Variable H : host.

Definition source_name (lang code : str) : str :=
  if bool_decide (lang = lit "Python") then lit "main.py"
  else if bool_decide (lang = lit "C++") then lit "main.cpp"
  else class_name (unicode H) code ++ lit ".java".

Definition source_file (lang code : str) (w : world) : str :=
  path_join H (mkdtemp H w) (source_name lang code).

Definition executable (w : world) : str :=
  path_join H (mkdtemp H w) (if nt H then lit "main.exe" else lit "main").

(** g++ -O2 -std=c++17 source -o executable, and javac source, run in the
    temporary directory; neither with a timeout. *)
Definition compile_cmd (lang code : str) (w : world) : proc_call :=
  if bool_decide (lang = lit "C++")
  then {| argv := [lit "g++"; lit "-O2"; lit "-std=c++17"; source_file lang code w;
                   lit "-o"; executable w];
          capture_output := true; text := true; cwd := None; timeout := None |}
  else {| argv := [lit "javac"; source_file lang code w];
          capture_output := true; text := true; cwd := Some (mkdtemp H w);
          timeout := None |}.

(** The interpreter, unbuffered, on the file; the executable; the
    launcher with the temporary directory as class path and the class
    name as entry point: each with the timeout of the caller. *)
Definition run_cmd (lang code : str) (t : Z) (w : world) : proc_call :=
  {| argv :=
       if bool_decide (lang = lit "Python")
       then [python_exe H; lit "-u"; source_file lang code w]
       else if bool_decide (lang = lit "C++") then [executable w]
       else [lit "java"; lit "-cp"; mkdtemp H w; class_name (unicode H) code];
     capture_output := true; text := true; cwd := None; timeout := Some t |}.

(** The tools of the language are on the search path. *)
Definition tools_found (lang : str) : bool :=
  if bool_decide (lang = lit "Python") then true
  else if bool_decide (lang = lit "C++") then bool_decide (is_Some (shutil_which H (lit "g++")))
  else bool_decide (is_Some (shutil_which H (lit "javac")))
       && bool_decide (is_Some (shutil_which H (lit "java"))).

(** The source can be put into its file: the file system takes the name
    and the text has a UTF-8 encoding. *)
Definition source_fits (lang code : str) : Prop :=
  name_refused H (source_name lang code) = false
  ∧ existsb is_surrogate code = false.

(** The files there are once the source is written, and once a program
    has left its own among them. *)
Definition with_source (lang code : str) (w : world) : gmap str str :=
  <[source_file lang code w := code]> (files w).

Definition leaving (fx : list (str * str)) (fs : gmap str str) : gmap str str :=
  foldl (λ m kv, <[kv.1 := kv.2]> m) fs fx.

(** The run phase is reached: for Python at once; for C++ and Java when
    the compiler ends with status zero and text on its streams.  With it
    go the files the program finds and the time compilation took. *)
Inductive reaches_run (lang code : str) (w : world) : gmap str str → Qc → Prop :=
| reaches_interpreted :
    lang = lit "Python" →
    reaches_run lang code w (with_source lang code w) 0%Qc
| reaches_compiled d p fx :
    lang ≠ lit "Python" →
    behave H (compile_cmd lang code w) (with_source lang code w) = Exits d p fx →
    returncode p = 0%Z →
    reaches_run lang code w (leaving fx (with_source lang code w)) d.

(** A program that is still running when [t] seconds have passed. *)
Definition outlives (b : behaviour) (t : Z) : Prop :=
  match b with
  | Exits d _ _ | ExitsBinary d _ _ => ¬ (d ≤ Qc_of_Z t)%Qc
  | Hangs _ => True
  | NotFound => False
  end.

End Plan.

Section Shapes.
Variable H : host.

(** A run of the interpreter on the file [f] in [td], from the files
    [fs]: what the host offers, how the call ends, the events it adds,
    the world it leaves. *)
Inductive python_run (td f code : str) (pc : proc_call) (t : Z) (fs : gmap str str) :
  reply result → list event → world → Prop :=
| py_name_too_long w2 :
    name_refused H (path_name H f) = true →
    python_run td f code pc t fs (Exc (NameTooLong f))
      [Mkdtemp td; Rmtree td] (rmtree H td w2)
| py_unencodable w2 :
    name_refused H (path_name H f) = false →
    existsb is_surrogate code = true →
    python_run td f code pc t fs (Exc UnicodeEncodeError)
      [Mkdtemp td; WriteText f []; Rmtree td] (rmtree H td w2)
| py_not_started w2 :
    name_refused H (path_name H f) = false →
    existsb is_surrogate code = false →
    behave H pc (<[f := code]> fs) = NotFound →
    python_run td f code pc t fs (Exc (OSError (argv pc)))
      [Mkdtemp td; WriteText f code; Rmtree td] (rmtree H td w2)
| py_abandoned w2 :
    name_refused H (path_name H f) = false →
    existsb is_surrogate code = false →
    behave H pc (<[f := code]> fs) ≠ NotFound →
    (timeout_max H < t)%Z →
    python_run td f code pc t fs (Exc OverflowError)
      [Mkdtemp td; WriteText f code; Started pc; Abandoned pc; Rmtree td]
      (rmtree H td w2)
| py_timeout w2 :
    name_refused H (path_name H f) = false →
    existsb is_surrogate code = false →
    ¬ (timeout_max H < t)%Z →
    outlives (behave H pc (<[f := code]> fs)) t →
    python_run td f code pc t fs (Val (timeout_result t 0%Qc))
      [Mkdtemp td; WriteText f code; Started pc; Killed pc; Rmtree td]
      (rmtree H td w2)
| py_binary d st fx w2 :
    name_refused H (path_name H f) = false →
    existsb is_surrogate code = false →
    ¬ (timeout_max H < t)%Z →
    behave H pc (<[f := code]> fs) = ExitsBinary d st fx →
    (d ≤ Qc_of_Z t)%Qc →
    python_run td f code pc t fs (Exc UnicodeDecodeError)
      [Mkdtemp td; WriteText f code; Started pc; ExitedBinary pc d st; Rmtree td]
      (rmtree H td w2)
| py_done d p fx w2 :
    name_refused H (path_name H f) = false →
    existsb is_surrogate code = false →
    ¬ (timeout_max H < t)%Z →
    behave H pc (<[f := code]> fs) = Exits d p fx →
    (d ≤ Qc_of_Z t)%Qc →
    python_run td f code pc t fs (Val (completed_result p d 0%Qc))
      [Mkdtemp td; WriteText f code; Started pc; Exited pc d p; Rmtree td]
      (rmtree H td w2).

(** A run of a compiled language: the compiler call [cc] on [src], then
    the call [rc] of what it produced. *)
Inductive compiled_run (td src code : str) (cc rc : proc_call) (t : Z)
    (fs : gmap str str) : reply result → list event → world → Prop :=
| cr_name_too_long w2 :
    name_refused H (path_name H src) = true →
    compiled_run td src code cc rc t fs (Exc (NameTooLong src))
      [Mkdtemp td; Rmtree td] (rmtree H td w2)
| cr_unencodable w2 :
    name_refused H (path_name H src) = false →
    existsb is_surrogate code = true →
    compiled_run td src code cc rc t fs (Exc UnicodeEncodeError)
      [Mkdtemp td; WriteText src []; Rmtree td] (rmtree H td w2)
| cr_compiler_not_started w2 :
    name_refused H (path_name H src) = false →
    existsb is_surrogate code = false →
    behave H cc (<[src := code]> fs) = NotFound →
    compiled_run td src code cc rc t fs (Exc (OSError (argv cc)))
      [Mkdtemp td; WriteText src code; Rmtree td] (rmtree H td w2)
| cr_compiler_hangs fx w2 :
    name_refused H (path_name H src) = false →
    existsb is_surrogate code = false →
    behave H cc (<[src := code]> fs) = Hangs fx →
    compiled_run td src code cc rc t fs Never
      [Mkdtemp td; WriteText src code; Started cc] w2
| cr_compile_binary d st fx w2 :
    name_refused H (path_name H src) = false →
    existsb is_surrogate code = false →
    behave H cc (<[src := code]> fs) = ExitsBinary d st fx →
    compiled_run td src code cc rc t fs (Exc UnicodeDecodeError)
      [Mkdtemp td; WriteText src code; Started cc; ExitedBinary cc d st; Rmtree td]
      (rmtree H td w2)
| cr_compile_error d p fx w2 :
    name_refused H (path_name H src) = false →
    existsb is_surrogate code = false →
    behave H cc (<[src := code]> fs) = Exits d p fx →
    returncode p ≠ 0%Z →
    compiled_run td src code cc rc t fs (Val (compile_error_result p d))
      [Mkdtemp td; WriteText src code; Started cc; Exited cc d p; Rmtree td]
      (rmtree H td w2)
| cr_run_not_started d p fx w2 :
    name_refused H (path_name H src) = false →
    existsb is_surrogate code = false →
    behave H cc (<[src := code]> fs) = Exits d p fx →
    returncode p = 0%Z →
    behave H rc (leaving fx (<[src := code]> fs)) = NotFound →
    compiled_run td src code cc rc t fs (Exc (OSError (argv rc)))
      [Mkdtemp td; WriteText src code; Started cc; Exited cc d p; Rmtree td]
      (rmtree H td w2)
| cr_run_abandoned d p fx w2 :
    name_refused H (path_name H src) = false →
    existsb is_surrogate code = false →
    behave H cc (<[src := code]> fs) = Exits d p fx →
    returncode p = 0%Z →
    behave H rc (leaving fx (<[src := code]> fs)) ≠ NotFound →
    (timeout_max H < t)%Z →
    compiled_run td src code cc rc t fs (Exc OverflowError)
      [Mkdtemp td; WriteText src code; Started cc; Exited cc d p;
       Started rc; Abandoned rc; Rmtree td]
      (rmtree H td w2)
| cr_run_timeout d p fx w2 :
    name_refused H (path_name H src) = false →
    existsb is_surrogate code = false →
    behave H cc (<[src := code]> fs) = Exits d p fx →
    returncode p = 0%Z →
    ¬ (timeout_max H < t)%Z →
    outlives (behave H rc (leaving fx (<[src := code]> fs))) t →
    compiled_run td src code cc rc t fs (Exc (TimeoutExpired (argv rc) t))
      [Mkdtemp td; WriteText src code; Started cc; Exited cc d p;
       Started rc; Killed rc; Rmtree td]
      (rmtree H td w2)
| cr_run_binary d p fx d' st fx' w2 :
    name_refused H (path_name H src) = false →
    existsb is_surrogate code = false →
    behave H cc (<[src := code]> fs) = Exits d p fx →
    returncode p = 0%Z →
    ¬ (timeout_max H < t)%Z →
    behave H rc (leaving fx (<[src := code]> fs)) = ExitsBinary d' st fx' →
    (d' ≤ Qc_of_Z t)%Qc →
    compiled_run td src code cc rc t fs (Exc UnicodeDecodeError)
      [Mkdtemp td; WriteText src code; Started cc; Exited cc d p;
       Started rc; ExitedBinary rc d' st; Rmtree td]
      (rmtree H td w2)
| cr_done d p fx d' p' fx' w2 :
    name_refused H (path_name H src) = false →
    existsb is_surrogate code = false →
    behave H cc (<[src := code]> fs) = Exits d p fx →
    returncode p = 0%Z →
    ¬ (timeout_max H < t)%Z →
    behave H rc (leaving fx (<[src := code]> fs)) = Exits d' p' fx' →
    (d' ≤ Qc_of_Z t)%Qc →
    compiled_run td src code cc rc t fs (Val (completed_result p' d' d))
      [Mkdtemp td; WriteText src code; Started cc; Exited cc d p;
       Started rc; Exited rc d' p'; Rmtree td]
      (rmtree H td w2).

(** The three ways a supported request goes: a tool is missing and
    nothing happens; the interpreter is run; a compiler and then its
    product are run. *)
Inductive run_cases (lang code : str) (t : Z) (w : world) : Prop :=
| case_missing msg :
    lang ≠ lit "Python" →
    run_code H lang code t w = (Val (missing_result msg), w) →
    run_cases lang code t w
| case_python td f pc evs :
    lang = lit "Python" →
    timeout pc = Some t →
    below H td f →
    trace (run_code H lang code t w).2 = trace w ++ evs →
    python_run td f code pc t (files w)
      (run_code H lang code t w).1 evs (run_code H lang code t w).2 →
    run_cases lang code t w
| case_compiled td src cc rc evs :
    lang ≠ lit "Python" →
    timeout cc = None →
    timeout rc = Some t →
    below H td src →
    trace (run_code H lang code t w).2 = trace w ++ evs →
    compiled_run td src code cc rc t (files w)
      (run_code H lang code t w).1 evs (run_code H lang code t w).2 →
    run_cases lang code t w.

End Shapes.

(** ** Sample hosts and requests *)

Definition empty_world : world :=
  {| files := ∅; dirs := ∅; now := 0%Qc; trace := [] |}.

Definition process (rc : Z) (out err : string) : CompletedProcess :=
  {| returncode := rc; p_stdout := lit out; p_stderr := lit err |}.

(** A POSIX host whose search path holds [tools], where every compiler
    behaves as [compiler] and every other program as [runner]. *)
Definition scripted (tools : list str) (compiler runner : behaviour) : host :=
  {| unicode := ascii_only;
     os_name := lit "posix";
     sys_executable := Some (lit "/usr/bin/python3");
     shutil_which := λ cmd,
       if bool_decide (cmd ∈ tools) then Some (lit "/usr/bin/" ++ cmd) else None;
     mkdtemp := λ _, lit "/tmp/tmpk3";
     name_too_long := λ name, (255 <? length name);
     timeout_max := 2147483;
     behave := λ c _,
       if bool_decide (head (argv c) = Some (lit "g++")
                       ∨ head (argv c) = Some (lit "javac"))
       then compiler else runner |}.

Definition toolchain : list str := [lit "g++"; lit "javac"; lit "java"].

(** Compilation takes two seconds and leaves a binary; the program prints
    a greeting within a second. *)
Definition working_host : host :=
  scripted toolchain
    (Exits (Qc_of_Z 2) (process 0 "" "") [(lit "/tmp/tmpk3/main", lit "ELF")])
    (Exits (Qc_of_Z 1) (process 0 "hello" "") []).

(** The compiler rejects the source. *)
Definition rejecting_host : host :=
  scripted toolchain
    (Exits (Qc_of_Z 2) (process 1 "" "error: expected ';'") [])
    NotFound.

(** Compilation succeeds; the program never ends. *)
Definition looping_host : host :=
  scripted toolchain
    (Exits (Qc_of_Z 2) (process 0 "" "") [(lit "/tmp/tmpk3/main", lit "ELF")])
    (Hangs []).

(** The compiler never ends. *)
Definition stuck_compiler_host : host := scripted toolchain (Hangs []) NotFound.

(** Nothing is installed. *)
Definition bare_host : host := scripted [] NotFound NotFound.

(** The compiler ends with status 1 and diagnostics that are no text in
    the encoding of the locale. *)
Definition binary_diagnostics_host : host :=
  scripted toolchain (ExitsBinary (Qc_of_Z 2) 1 []) NotFound.


Definition python_call (t : Z) : proc_call :=
  run_args [lit "/usr/bin/python3"; lit "-u"; lit "/tmp/tmpk3/main.py"] None (Some t).

Definition hello_cpp : str := lit "int main(){ return 0; }".
Definition loop_cpp : str := lit "int main(){ for(;;); }".
Definition hello_java : str :=
  lit "public class Hello { public static void main(String[] a){} }".
Definition loop_java : str :=
  lit "public class Spin { public static void main(String[] a){ for(;;); } }".

Definition gpp_call : proc_call :=
  run_args [lit "g++"; lit "-O2"; lit "-std=c++17"; lit "/tmp/tmpk3/main.cpp";
            lit "-o"; lit "/tmp/tmpk3/main"] None None.

Definition binary_call (t : Z) : proc_call :=
  run_args [lit "/tmp/tmpk3/main"] None (Some t).

Definition javac_call (cname : string) : proc_call :=
  run_args [lit "javac"; lit "/tmp/tmpk3/" ++ lit cname ++ lit ".java"]
    (Some (lit "/tmp/tmpk3")) None.

Definition java_call (cname : string) (t : Z) : proc_call :=
  run_args [lit "java"; lit "-cp"; lit "/tmp/tmpk3"; lit cname] None (Some t).

(** * The rest of the application *)

(** ** Fenced code in a reply *)

(** Patterns with a lazy repetition, over the patterns of [Re]. *)
Module ReS.

Inductive regex :=
| Lift (r : Re.regex)
| Lazy (p : char → bool)
| Cat (r1 r2 : regex)
| Group (r : regex).

(** Lazy repetition: stop here when the rest of the pattern matches, and
    take one more character only when it does not. *)
Fixpoint lazy {A} (p : char → bool) (k : str → option A) (s : str) : option A :=
  match k s with
  | Some a => Some a
  | None =>
      match s with
      | c :: s' => if p c then lazy p k s' else None
      | [] => None
      end
  end.

Fixpoint rmatch {A} (r : regex) (s : str) (g : option str)
    (k : str → option str → option A) : option A :=
  match r with
  | Lift r0 => Re.rmatch r0 s g k
  | Lazy p => lazy p (λ s', k s' g) s
  | Cat r1 r2 => rmatch r1 s g (λ s1 g1, rmatch r2 s1 g1 k)
  | Group r1 =>
      rmatch r1 s g (λ s1 _, k s1 (Some (take (length s - length s1) s)))
  end.

Definition match_ (r : regex) (s : str) : option (option str) :=
  rmatch r s None (λ _ g, Some g).

Fixpoint search (r : regex) (s : str) : option (option str) :=
  match match_ r s with
  | Some g => Some g
  | None =>
      match s with
      | [] => None
      | _ :: s' => search r s'
      end
  end.

End ReS.

(** [a-zA-Z0-9+] *)
Definition is_fence_tag (c : char) : bool :=
  Re.in_range 97 122 c || Re.in_range 65 90 c || Re.in_range 48 57 c || (c =? 43)%N.

(** The pattern of [extract_code], compiled with [re.S]: three backticks,
    any number of tag characters, a newline, as group 1 as few characters
    of any kind as possible, three backticks. *)
Definition fence_re : ReS.regex :=
  ReS.Cat (ReS.Lift (Re.chars (lit "```") (Re.Cat (Re.Star is_fence_tag) (Re.Chr 10))))
    (ReS.Cat (ReS.Group (ReS.Lazy (λ _, true)))
       (ReS.Lift (Re.chars (lit "``") (Re.Chr 96)))).

Section Reply.
Variable U : unicode_db.

(** [str.strip()]: white space is what [str.isspace] says, as for [\s]. *)
Definition str_lstrip (s : str) : str := drop_while (Re.is_space U) s.

Definition str_rstrip (s : str) : str :=
  reverse (drop_while (Re.is_space U) (reverse s)).

Definition str_strip (s : str) : str := str_rstrip (str_lstrip s).

(** [m = re.search(..., text, flags=re.S);
     return m.group(1).strip() if m else text.strip()].
    Group 1 is set by every match; the middle case is there for totality. *)
Definition extract_code (text : str) : str :=
  match ReS.search fence_re text with
  | Some (Some body) => str_strip body
  | Some None => []
  | None => str_strip text
  end.

End Reply.

(** *** What a fenced block is *)

Definition marker : str := lit "```".

(** [pat] occurs somewhere in [s]. *)
Definition occurs (pat s : str) : Prop := ∃ a b, s = a ++ pat ++ b.

(** [s] begins with a fence: the marker, a tag, a newline, then [body] up
    to the next marker, which is the first one after the newline. *)
Definition fenced (s body : str) : Prop :=
  ∃ tag rest,
    s = marker ++ tag ++ [10%N] ++ body ++ marker ++ rest
    ∧ Forall (λ c, is_fence_tag c = true) tag
    ∧ ∀ j, j < length body → ¬ marker `prefix_of` drop j (body ++ marker ++ rest).

(** The text a reply is reduced to before stripping: the body of its first
    fenced block, or all of it when it has none. *)
Inductive first_fenced (text : str) : str → Prop :=
| ff_found pre s body :
    text = pre ++ s →
    fenced s body →
    (∀ pre' s' b', text = pre' ++ s' → length pre' < length pre → ¬ fenced s' b') →
    first_fenced text body
| ff_none :
    (∀ pre s b, text = pre ++ s → ¬ fenced s b) →
    first_fenced text text.

(** A deterministic scanner for one fenced block. *)
Fixpoint until_marker (s : str) : option str :=
  match strip marker s with
  | Some _ => Some []
  | None =>
      match s with
      | c :: s' => cons c <$> until_marker s'
      | [] => None
      end
  end.

Definition scan_fence (s : str) : option str :=
  s1 ← strip marker s;
  match drop_while is_fence_tag s1 with
  | c :: s2 => if (10 =? c)%N then until_marker s2 else None
  | [] => None
  end.

(** A text that neither begins nor ends with white space. *)
Definition trimmed (U : unicode_db) (s : str) : Prop :=
  (∀ c, head s = Some c → Re.is_space U c = false)
  ∧ (∀ c, last s = Some c → Re.is_space U c = false).

(** ** More vocabulary for runs *)

(** One process at a time: whatever is started has ended, by itself or by
    being killed, before anything else happens; only the last event may be
    a process still running. *)
Fixpoint one_at_a_time (evs : list event) : Prop :=
  match evs with
  | [] => True
  | Started c :: rest =>
      match rest with
      | [] => True
      | Exited c' _ _ :: rest' => c' = c ∧ one_at_a_time rest'
      | ExitedBinary c' _ _ :: rest' => c' = c ∧ one_at_a_time rest'
      | Killed c' :: rest' => c' = c ∧ one_at_a_time rest'
      | Abandoned c' :: rest' => c' = c ∧ one_at_a_time rest'
      | _ => False
      end
  | Exited _ _ _ :: _ => False
  | ExitedBinary _ _ _ :: _ => False
  | Killed _ :: _ => False
  | Abandoned _ :: _ => False
  | _ :: rest => one_at_a_time rest
  end.

(** The files a program leaves behind. *)
Definition wrote_files (b : behaviour) : list (str * str) :=
  match b with
  | Exits _ _ fx => fx
  | ExitsBinary _ _ fx => fx
  | Hangs fx => fx
  | NotFound => []
  end.

(** A world with a file of the user's in it. *)
Definition notes_world : world :=
  {| files := {[lit "/home/u/notes.txt" := lit "keep"]}; dirs := ∅;
     now := 0%Qc; trace := [] |}.

(** ** Keys, model calls and conversion *)

(** [@dataclass class LLMRequest] *)
Record LLMRequest := {
  system : str;
  user : str;
  model : str
}.

(** What the calls read of a reply object.  The source reads attributes
    with [getattr] and a default, so an attribute the object lacks is
    [None] here; an attribute it has holds text or a list, as the client
    libraries declare them. *)
Record content_part := {
  part_type : option str;
  part_text : option str
}.

Record output_item := {
  item_content : option (list content_part)
}.

Record openai_response := {
  output_text : option str;
  output : option (list output_item)
}.

Record anthropic_block := {
  block_text : option str
}.

Record anthropic_message := {
  content : list anthropic_block
}.

(** The exceptions of this part, each with the text [str(e)] gives. *)
Inductive failure :=
| ImportError (msg : str)
| RuntimeError (msg : str)
| ApiError (msg : str).

Inductive outcome (A : Type) :=
| Ok (a : A)
| Raise (e : failure).
Arguments Ok {A} a.
Arguments Raise {A} e.

(** What lies outside the process: the environment variables (after
    [load_dotenv]), the secrets of Streamlit ([None] when there is no
    secrets file, the values being strings), the message of the
    ImportError when a client library cannot be imported, and what the
    two services answer to a request made with a given key. *)
Record services := {
  environ : gmap str str;
  secrets : option (gmap str str);
  openai_import_error : option str;
  anthropic_import_error : option str;
  openai_create : str → LLMRequest → outcome openai_response;
  anthropic_create : str → LLMRequest → outcome anthropic_message
}.

(** [sep.join(l)] *)
Fixpoint str_join (sep : str) (l : list str) : str :=
  match l with
  | [] => []
  | x :: l' =>
      match l' with
      | [] => x
      | _ => x ++ sep ++ str_join sep l'
      end
  end.

(** [str.replace(old, new)] for a non-empty [old]: occurrences are
    replaced from left to right and do not overlap; [skip] counts the
    characters of an occurrence still to be passed over. *)
Fixpoint replace_from (old new : str) (skip : nat) (s : str) : str :=
  match s with
  | [] => []
  | c :: s' =>
      match skip with
      | S k => replace_from old new k s'
      | O =>
          match strip old s with
          | Some _ => new ++ replace_from old new (length old - 1) s'
          | None => c :: replace_from old new 0 s'
          end
      end
  end.

Definition str_replace (old new s : str) : str := replace_from old new 0 s.

Section Conversion.
Variable U : unicode_db.
Variable S : services.

(** [str.lower()] of the interpreter, for the characters beyond ASCII. *)
Variable uni_lower : char → str.

Definition str_lower (s : str) : str :=
  flat_map (λ c, if Re.in_range 65 90 c then [(c + 32)%N]
                 else if (c <? 128)%N then [c]
                 else uni_lower c) s.

Definition get_secret (key : str) (default : option str) : option str :=
  match environ S !! key with
  | Some val => Some val
  | None =>
      match secrets S with
      | Some m =>
          match m !! key with
          | Some v => Some v
          | None => default
          end
      | None => default
      end
  end.

(** [os.getenv(name, "").strip() or get_secret(name)], the expression
    both calls begin with. *)
Definition key_from (name : str) : option str :=
  match str_strip U (default [] (environ S !! name)) with
  | c :: k => Some (c :: k)
  | [] => get_secret name None
  end.

(** The texts of the parts of a reply that are of type output_text or
    text, in order. *)
Definition output_texts (resp : openai_response) : list str :=
  flat_map
    (λ item,
       omap (λ c, if bool_decide (part_type c = Some (lit "output_text")
                                  ∨ part_type c = Some (lit "text"))
                  then Some (default [] (part_text c)) else None)
         (default [] (item_content item)))
    (default [] (output resp)).

Definition call_openai (req : LLMRequest) : outcome str :=
  match openai_import_error S with
  | Some msg => Raise (ImportError msg)
  | None =>
    match key_from (lit "OPENAI_API_KEY") with
    | Some (c :: k) =>
        match openai_create S (c :: k) req with
        | Raise e => Raise e
        | Ok resp =>
            match output_text resp with
            | Some (a :: t) => Ok (str_strip U (a :: t))
            | _ => Ok (str_strip U (str_join [10%N] (output_texts resp)))
            end
        end
    | _ => Raise (RuntimeError (lit "OPENAI_API_KEY missing in .env at project root."))
    end
  end.

Definition call_anthropic (req : LLMRequest) : outcome str :=
  match anthropic_import_error S with
  | Some msg => Raise (ImportError msg)
  | None =>
    match key_from (lit "ANTHROPIC_API_KEY") with
    | Some (c :: k) =>
        match anthropic_create S (c :: k) req with
        | Raise e => Raise e
        | Ok msg =>
            Ok (str_strip U
                  (concat (map (λ b, default [] (block_text b)) (content msg))))
        end
    | _ => Raise (RuntimeError (lit "ANTHROPIC_API_KEY missing in .env at project root."))
    end
  end.

(** [SYSTEM_PROMPT_BASE.format(src=src_lang, tgt=tgt_lang)] *)
Definition system_prompt (src_lang tgt_lang : str) : str :=
  lit "You are a compiler-grade code transpiler.
Convert the given source code from " ++ src_lang ++ lit " to " ++ tgt_lang ++ lit ".
Preserve logic, naming, and structure as much as possible.
Output only valid " ++ tgt_lang ++ lit " code (no markdown fences).
The response needs to produce an identical output in the fastest possible time.".

Definition user_prompt (src_lang tgt_lang code : str) : str :=
  lit "Convert the following " ++ src_lang ++ lit " code into " ++ tgt_lang
    ++ lit ". Output only " ++ tgt_lang ++ lit " code:

" ++ code.

Definition convert_code (src_lang tgt_lang code model engine : str) : outcome str :=
  let req := {| system := system_prompt src_lang tgt_lang;
                user := user_prompt src_lang tgt_lang code;
                model := model |} in
  if bool_decide (engine = lit "OpenAI") then call_openai req else call_anthropic req.

End Conversion.

(** ** The page *)

(** Where an element is drawn: the page itself, one of the two result
    columns, or the placeholder of the target editor. *)
Inductive container :=
| Main
| Column (i : nat)
| Placeholder.

(** The elements the two handlers draw.  [st.code] has an optional
    language; [st.spinner] is noted when it is entered. *)
Inductive element :=
| st_markdown (body : str)
| st_write (body : str)
| st_code (body : str) (language : option str)
| st_error (body : str)
| st_info (body : str)
| st_warning (body : str)
| st_spinner (body : str).

Abbreviation drawn := (list (container * element)).

(** A handler draws elements and acts on the world. *)
Definition ui (A : Type) : Type := drawn → world → reply A * drawn * world.

#[export] Instance ui_ret : MRet ui := λ A a out w, (Val a, out, w).

#[export] Instance ui_bind : MBind ui := λ A B f m out w,
  match m out w with
  | (Val a, out', w') => f a out' w'
  | (Exc e, out', w') => (Exc e, out', w')
  | (Never, out', w') => (Never, out', w')
  end.

Definition draw (l : drawn) : ui unit := λ out w, (Val (), out ++ l, w).

Definition perform {A} (m : io A) : ui A := λ out w,
  match m w with (r, w') => (r, out, w') end.

Section Page.
Variable U : unicode_db.
Variable H : host.
Variable S : services.
Variable uni_lower : char → str.

(** The text of a number under the format [.4f]. *)
Variable format_4f : Qc → str.

(** [tgt_lang.lower().replace("++", "cpp")] *)
Definition highlight_language (tgt_lang : str) : str :=
  str_replace (lit "++") (lit "cpp") (str_lower uni_lower tgt_lang).

(** The body of [if convert:], from the target code of the session to the
    new one and what is drawn. *)
Definition on_convert (src_lang tgt_lang src_code model engine tgt_code : str)
  : str * drawn :=
  match convert_code U S src_lang tgt_lang src_code model engine with
  | Ok reply =>
      let code := extract_code U reply in
      (code, [(Placeholder, st_code code (Some (highlight_language tgt_lang)))])
  | Raise e =>
      (tgt_code,
       [(Main, st_error (lit "Conversion failed: "
                           ++ match e with
                              | ImportError msg | RuntimeError msg | ApiError msg => msg
                              end))])
  end.

Definition show_result (title : str) (r : result) (into : container) : drawn :=
  [(into, st_markdown (lit "**" ++ title ++ lit "**"))]
  ++ (if bool_decide (compile_time_s r ≠ 0%Qc)
      then [(into, st_write (lit "Compile: `" ++ format_4f (compile_time_s r) ++ lit "s`"))]
      else [])
  ++ [(into, st_write (lit "Run: `" ++ format_4f (time_s r) ++ lit "s`"))]
  ++ (match stdout r with
      | [] => []
      | _ => [(into, st_write (lit "**stdout**")); (into, st_code (stdout r) None)]
      end)
  ++ (match stderr r with
      | [] => []
      | _ => [(into, st_write (lit "**stderr**")); (into, st_code (stderr r) None)]
      end)
  ++ (if negb (ok r) then [(into, st_error (lit "Execution failed."))] else []).

(** The block [if not enable_exec: ... else: ...] under Run and Measure.
    The spinner text ends with an ellipsis, code point 8230. *)
Definition run_and_measure (enable_exec run_src run_tgt run_both : bool)
    (src_lang tgt_lang src_code tgt_code : str) (timeout_s : Z) : ui unit :=
  if negb enable_exec then
    draw [(Main, st_info
             (lit "Enable 'Allow running code locally' in the sidebar to execute programs."))]
  else
    (if run_src || run_both
     then
       draw [(Main, st_spinner (lit "Running " ++ src_lang ++ [8230%N]))];;
       r1 ← perform (run_code H src_lang src_code timeout_s);
       draw (show_result (src_lang ++ lit " (source)") r1 (Column 0))
     else mret ());;
    (if run_tgt || run_both
     then
       match tgt_code with
       | [] => draw [(Main, st_warning
                        (lit "No converted code yet. Click 'Convert' first."))]
       | tcode =>
           draw [(Main, st_spinner (lit "Running " ++ tgt_lang ++ [8230%N]))];;
           r2 ← perform (run_code H tgt_lang tcode timeout_s);
           draw (show_result (tgt_lang ++ lit " (target)") r2 (Column 1))
       end
     else mret ()).

End Page.

(** *** Vocabulary for the properties of this part *)

(** The variable a conversion takes its key from. *)
Definition key_name (engine : str) : str :=
  if bool_decide (engine = lit "OpenAI") then lit "OPENAI_API_KEY"
  else lit "ANTHROPIC_API_KEY".

(** The ImportError of the library a conversion needs, if any. *)
Definition import_error (S : services) (engine : str) : option str :=
  if bool_decide (engine = lit "OpenAI") then openai_import_error S
  else anthropic_import_error S.

(** No key can be found for [name]: the variable is set to the empty
    text, or it is not set and the secrets have no text for it either. *)
Definition no_key (S : services) (name : str) : Prop :=
  match environ S !! name with
  | Some v => v = []
  | None =>
      match secrets S with
      | Some m => m !! name = None ∨ m !! name = Some []
      | None => True
      end
  end.

(** The same surroundings with other secrets, and with other services. *)
Definition with_secrets (S : services) (m : option (gmap str str)) : services :=
  {| environ := environ S; secrets := m;
     openai_import_error := openai_import_error S;
     anthropic_import_error := anthropic_import_error S;
     openai_create := openai_create S; anthropic_create := anthropic_create S |}.

Definition with_services (S : services)
    (o : str → LLMRequest → outcome openai_response)
    (a : str → LLMRequest → outcome anthropic_message) : services :=
  {| environ := environ S; secrets := secrets S;
     openai_import_error := openai_import_error S;
     anthropic_import_error := anthropic_import_error S;
     openai_create := o; anthropic_create := a |}.

(** The events a handler adds to the trace. *)
Definition ui_events {A} (m : ui A) (out : drawn) (w : world) : list event :=
  drop (length (trace w)) (trace (m out w).2).

(** Sample surroundings: a key in the secrets only. *)
Definition sample_services (env : gmap str str) : services :=
  {| environ := env;
     secrets := Some {[lit "OPENAI_API_KEY" := lit "sk-secret"]};
     openai_import_error := None;
     anthropic_import_error := Some (lit "No module named 'anthropic'");
     openai_create := λ key _,
       Ok {| output_text := Some (lit "  int main(){}  "); output := None |};
     anthropic_create := λ key _, Raise (ApiError (lit "401")) |}.

(** * Proofs *)

Arguments lit : simpl never.
Arguments class_name : simpl never.
Arguments path_join : simpl never.
Arguments rmtree : simpl never.
Arguments name_refused : simpl never.

Ltac bools :=
  unfold Re.is_space, Re.is_word, Re.is_ident_start, Re.in_range in *;
  repeat match goal with
         | H : context [(?a <? ?b)%N] |- _ => destruct (N.ltb_spec a b)
         | |- context [(?a <? ?b)%N] => destruct (N.ltb_spec a b)
         | H : context [(?a <=? ?b)%N] |- _ => destruct (N.leb_spec a b)
         | |- context [(?a <=? ?b)%N] => destruct (N.leb_spec a b)
         | H : context [(?a =? ?b)%N] |- _ => destruct (N.eqb_spec a b)
         | |- context [(?a =? ?b)%N] => destruct (N.eqb_spec a b)
         end;
  simpl in *; try done; try lia.

Ltac innermost x :=
  lazymatch x with
  | context [match ?y with _ => _ end] => innermost y
  | _ => destruct x eqn:?
  end.

Ltac exec_step :=
  match goal with
  | |- context [match ?x with _ => _ end] => innermost x
  end.

(** Run a runner symbolically, splitting on what the host answers. *)
Ltac exec :=
  unfold TemporaryDirectory, try_except_TimeoutExpired, write_text, subprocess_run,
    perf_counter, mbind, io_bind, mret, io_ret, run_args;
  simpl; repeat (exec_step; simplify_eq/=).

Ltac trace_simpl := rewrite <- ?app_assoc, ?drop_app_length; simpl.

Ltac pick := simpl; repeat first [apply list_elem_of_here | apply list_elem_of_further].

(** The side conditions of a shape: what the host answered. *)
Ltac shape_side :=
  unfold leaving, outlives in *;
  try done; try congruence;
  try (match goal with
       | E : behave _ _ _ = _ |- _ => rewrite E
       end; done).

Ltac exit_status :=
  repeat match goal with
         | E : negb (_ =? _)%Z = true |- _ => apply negb_true_iff, Z.eqb_neq in E
         | E : negb (_ =? _)%Z = false |- _ => apply negb_false_iff, Z.eqb_eq in E
         end.

(** ** The pattern finds the first public-class declaration *)

Example class_name_Foo :
  class_name ascii_only (lit "import x; public  class Foo1 { }") = lit "Foo1".
Proof. reflexivity. Qed.

Example class_name_first :
  class_name ascii_only (lit "public class A{} public class B{}") = lit "A".
Proof. reflexivity. Qed.

Example class_name_fallback :
  class_name ascii_only (lit "class Foo { }") = lit "Main".
Proof. reflexivity. Qed.

Example class_name_digit_start :
  class_name ascii_only (lit "public class 9x {} public class Y {}") = lit "Y".
Proof. reflexivity. Qed.

Section ClassNameProofs.
Variable U : unicode_db.
Abbreviation is_space := (Re.is_space U).
Abbreviation is_word := (Re.is_word U).

Lemma space_not_ident_start c : is_space c = true → Re.is_ident_start c = false.
Proof. intros Hc. bools. Qed.

Lemma ident_start_word c : Re.is_ident_start c = true → is_word c = true.
Proof. intros Hc. bools. Qed.

Lemma space_not_letter_c c : is_space c = true → (99 =? c)%N = false.
Proof. intros Hc. bools. Qed.

(** *** Greedy repetition *)

Lemma take_drop_while p s : take_while p s ++ drop_while p s = s.
Proof. induction s as [|c s IH]; simpl; [done|]. destruct (p c); simpl; by f_equal. Qed.

Lemma take_while_all p s : Forall (λ c, p c = true) (take_while p s).
Proof.
  induction s as [|c s IH]; simpl; [constructor|].
  destruct (p c) eqn:E; by constructor.
Qed.

Lemma drop_while_stops p s :
  match drop_while p s with [] => True | c :: _ => p c = false end.
Proof. induction s as [|c s IH]; simpl; [done|]. by destruct (p c) eqn:E. Qed.

Lemma drop_while_app p ws rest :
  Forall (λ c, p c = true) ws →
  match rest with [] => True | c :: _ => p c = false end →
  drop_while p (ws ++ rest) = rest ∧ take_while p (ws ++ rest) = ws.
Proof.
  intros Hws Hrest. induction Hws as [|c ws Hc _ IH]; simpl.
  - destruct rest as [|c rest]; simpl; [done|]. by rewrite Hrest.
  - rewrite Hc. destruct IH as [-> ->]. done.
Qed.

(** When the rest of the pattern cannot begin with a character of the
    set, giving characters back never helps: the repetition takes all it
    can and the rest either matches there or nowhere. *)
Lemma greedy_all {A} p (k : str → option A) s :
  (∀ c s', p c = true → k (c :: s') = None) →
  Re.greedy p k s = k (drop_while p s).
Proof.
  intros Hk. induction s as [|c s IH]; simpl; [done|].
  destruct (p c) eqn:E; [|done].
  rewrite IH. destruct (k (drop_while p s)); [done|]. by apply Hk.
Qed.

(** When the rest of the pattern accepts anything, the first try, the
    longest, is the one that counts. *)
Lemma greedy_longest {A} p (k : str → option A) s :
  (∀ s', is_Some (k s')) →
  Re.greedy p k s = k (drop_while p s).
Proof.
  intros Hk. induction s as [|c s IH]; simpl; [done|].
  destruct (p c) eqn:E; [|done].
  rewrite IH. by destruct (Hk (drop_while p s)) as [a ->].
Qed.

Lemma rmatch_chars {A} l r s g (k : str → option str → option A) :
  Re.rmatch (Re.chars l r) s g k =
    match strip l s with
    | Some s' => Re.rmatch r s' g k
    | None => None
    end.
Proof.
  revert s. induction l as [|c l IH]; intros s; simpl; [done|].
  destruct s as [|c' s]; [done|]. destruct (c =? c')%N; [apply IH | done].
Qed.

Lemma rmatch_plus_space {A} s g (k : str → option str → option A) :
  (∀ c s', is_space c = true → k (c :: s') g = None) →
  Re.rmatch (Re.Plus is_space) s g k =
    match blanks U s with
    | Some s' => k s' g
    | None => None
    end.
Proof.
  intros Hk. destruct s as [|c s]; simpl; [done|].
  destruct (is_space c); [|done]. by apply greedy_all.
Qed.

Lemma capture_length p c (s : str) :
  take (length (c :: s) - length (drop_while p s)) (c :: s) = c :: take_while p s.
Proof.
  rewrite <- (take_drop_while p s) at 1 3.
  rewrite !length_cons, length_app.
  replace (S (length (take_while p s) + length (drop_while p s)) - length (drop_while p s))
    with (length (c :: take_while p s)) by (simpl; lia).
  change (c :: take_while p s ++ drop_while p s)
    with ((c :: take_while p s) ++ drop_while p s).
  apply take_app_length.
Qed.

(** *** The matcher computes the scanner *)

Lemma rmatch_cat {A} a b s g (k : str → option str → option A) :
  Re.rmatch (Re.Cat a b) s g k = Re.rmatch a s g (λ s1 g1, Re.rmatch b s1 g1 k).
Proof. done. Qed.

Lemma rmatch_identifier s g :
  Re.rmatch (Re.Group (Re.Cat (Re.Any Re.is_ident_start) (Re.Star is_word))) s g
    (λ _ g', Some g') = Some <$> ident U s.
Proof.
  destruct s as [|c s]; [done|]. simpl.
  destruct (Re.is_ident_start c); [|done].
  rewrite greedy_longest by (intros; eexists; done).
  simpl. do 2 f_equal. apply (capture_length is_word c s).
Qed.

Lemma match_public_class s :
  Re.match_ (public_class_re U) s = Some <$> scan U s.
Proof.
  unfold Re.match_, public_class_re, scan.
  rewrite rmatch_chars.
  destruct (strip (lit "public") s) as [s1|]; cbn [mbind option_bind]; [|done].
  rewrite rmatch_cat, rmatch_plus_space.
  2:{ intros c s' Hc. rewrite rmatch_chars.
      change (strip (lit "class") (c :: s'))
        with (if (99 =? c)%N then strip (lit "lass") s' else None).
      by rewrite (space_not_letter_c c Hc). }
  destruct (blanks U s1) as [s2|]; cbn [mbind option_bind]; [|done].
  rewrite rmatch_chars.
  destruct (strip (lit "class") s2) as [s3|]; cbn [mbind option_bind]; [|done].
  rewrite rmatch_cat, rmatch_plus_space.
  2:{ intros c s' Hc. simpl. by rewrite (space_not_ident_start c Hc). }
  destruct (blanks U s3) as [s4|]; cbn [mbind option_bind]; [|done].
  apply rmatch_identifier.
Qed.

(** *** The scanner decides [declares] *)

Lemma strip_app l s : strip l (l ++ s) = Some s.
Proof. induction l as [|c l IH]; simpl; [done|]. by rewrite N.eqb_refl. Qed.

Lemma strip_Some l s s' : strip l s = Some s' → s = l ++ s'.
Proof.
  revert s. induction l as [|c l IH]; intros s; simpl; [congruence|].
  destruct s as [|c' s]; [done|]. destruct (N.eqb_spec c c'); [|done].
  intros Hs. subst c'. f_equal. by apply IH.
Qed.

Lemma blanks_app ws rest :
  blank U ws →
  match rest with [] => True | c :: _ => is_space c = false end →
  blanks U (ws ++ rest) = Some rest.
Proof.
  intros [Hne Hws] Hrest. destruct ws as [|c ws]; [done|].
  inversion_clear Hws as [|? ? Hc Hws']. simpl. rewrite Hc.
  by destruct (drop_while_app is_space ws rest Hws' Hrest) as [-> _].
Qed.

Lemma blanks_Some s s' :
  blanks U s = Some s' →
  ∃ ws, s = ws ++ s' ∧ blank U ws
        ∧ match s' with [] => True | c :: _ => is_space c = false end.
Proof.
  destruct s as [|c s]; simpl; [done|].
  destruct (is_space c) eqn:Hc; [|done]. intros [= <-].
  exists (c :: take_while is_space s). split; [|split; [split|]].
  - simpl. by rewrite take_drop_while.
  - done.
  - constructor; [done|]. apply take_while_all.
  - apply drop_while_stops.
Qed.

Lemma ident_app name rest :
  identifier U name → stops U rest → ident U (name ++ rest) = Some name.
Proof.
  intros (c & cs & -> & Hc & Hcs) Hrest. simpl. rewrite Hc.
  by destruct (drop_while_app is_word cs rest Hcs Hrest) as [_ ->].
Qed.

Lemma ident_Some s name :
  ident U s = Some name →
  ∃ rest, s = name ++ rest ∧ identifier U name ∧ stops U rest.
Proof.
  destruct s as [|c s]; simpl; [done|].
  destruct (Re.is_ident_start c) eqn:Hc; [|done]. intros [= <-].
  exists (drop_while is_word s). split; [|split].
  - simpl. by rewrite take_drop_while.
  - exists c, (take_while is_word s). split; [done|]. split; [done|].
    apply take_while_all.
  - apply drop_while_stops.
Qed.

Lemma scan_declares s name : scan U s = Some name ↔ declares U s name.
Proof.
  unfold scan. split.
  - intros Hs.
    destruct (strip (lit "public") s) as [s1|] eqn:E1;
      cbn [mbind option_bind] in Hs; [|done].
    destruct (blanks U s1) as [s2|] eqn:E2; cbn [mbind option_bind] in Hs; [|done].
    destruct (strip (lit "class") s2) as [s3|] eqn:E3;
      cbn [mbind option_bind] in Hs; [|done].
    destruct (blanks U s3) as [s4|] eqn:E4; cbn [mbind option_bind] in Hs; [|done].
    apply strip_Some in E1. apply strip_Some in E3.
    apply blanks_Some in E2 as (ws1 & -> & Hws1 & _).
    apply blanks_Some in E4 as (ws2 & -> & Hws2 & _).
    apply ident_Some in Hs as (rest & -> & Hn & Hrest).
    exists ws1, ws2, rest. subst. done.
  - intros (ws1 & ws2 & rest & -> & Hws1 & Hws2 & Hn & Hrest).
    rewrite strip_app. cbn [mbind option_bind].
    rewrite (blanks_app ws1) by (done || by vm_compute).
    cbn [mbind option_bind]. rewrite strip_app. cbn [mbind option_bind].
    rewrite (blanks_app ws2).
    + cbn [mbind option_bind]. by apply ident_app.
    + done.
    + destruct Hn as (c & cs & -> & Hc & _). simpl.
      destruct (is_space c) eqn:Hs; [|done].
      by rewrite (space_not_ident_start c Hs) in Hc.
Qed.

(** *** Searching *)

Lemma search_spec r s :
  match Re.search r s with
  | Some g =>
      ∃ pre s', s = pre ++ s' ∧ Re.match_ r s' = Some g
        ∧ ∀ pre' s'', s = pre' ++ s'' → length pre' < length pre →
                      Re.match_ r s'' = None
  | None => ∀ pre s', s = pre ++ s' → Re.match_ r s' = None
  end.
Proof.
  induction s as [|c s IH]; simpl.
  - destruct (Re.match_ r []) as [g|] eqn:E.
    + exists [], []. split; [done|]. split; [done|]. simpl. lia.
    + intros pre s' Hs. symmetry in Hs. apply app_eq_nil in Hs as [-> ->]. done.
  - destruct (Re.match_ r (c :: s)) as [g|] eqn:E.
    + exists [], (c :: s). split; [done|]. split; [done|]. simpl. lia.
    + destruct (Re.search r s) as [g|].
      * destruct IH as (pre & s' & -> & Hm & Hmin).
        exists (c :: pre), s'. split; [done|]. split; [done|].
        intros [|c' pre'] s'' Hs Hlen; simpl in *.
        -- by subst s''.
        -- injection Hs as -> Hs. apply (Hmin pre' s'' Hs). lia.
      * intros [|c' pre] s' Hs; simpl in *.
        -- by subst s'.
        -- injection Hs as -> Hs. by apply (IH pre s').
Qed.

Lemma search_public_class_group code :
  Re.search (public_class_re U) code ≠ Some None.
Proof.
  intros E. pose proof (search_spec (public_class_re U) code) as Hs.
  rewrite E in Hs. destruct Hs as (pre & s' & _ & Hm & _).
  rewrite match_public_class in Hm. by destruct (scan U s').
Qed.

Lemma class_name_first_public_class code :
  first_public_class U code (class_name U code).
Proof.
  unfold class_name.
  pose proof (search_spec (public_class_re U) code) as Hs.
  pose proof (search_public_class_group code) as Hg.
  destruct (Re.search (public_class_re U) code) as [[name|]|]; [| done |].
  - destruct Hs as (pre & s' & -> & Hm & Hmin).
    rewrite match_public_class in Hm.
    destruct (scan U s') as [n|] eqn:E; [|done]. injection Hm as ->.
    apply (fpc_found U _ pre s' name); [done | by apply scan_declares |].
    intros pre' s'' n' Hs Hlen Hd. apply scan_declares in Hd.
    specialize (Hmin pre' s'' Hs Hlen). rewrite match_public_class, Hd in Hmin. done.
  - apply fpc_fallback. intros pre s n Hc Hd. apply scan_declares in Hd.
    specialize (Hs pre s Hc). rewrite match_public_class, Hd in Hs. done.
Qed.

Lemma first_public_class_unique code n :
  first_public_class U code n → n = class_name U code.
Proof.
  intros Hn. pose proof (class_name_first_public_class code) as Hc.
  assert (Hsplit : ∀ (p1 p2 s1 s2 : str),
             p1 ++ s1 = p2 ++ s2 → length p1 = length p2 → s1 = s2).
  { intros p1 p2 s1 s2 He Hl. by apply app_inj_1 in He as [_ ?]. }
  destruct Hn as [pre s name Hcode Hd Hmin | Hnone];
    destruct Hc as [pre0 s0 name0 Hcode0 Hd0 Hmin0 | Hnone0].
  - destruct (lt_eq_lt_dec (length pre) (length pre0)) as [[Hlt|Heq]|Hgt].
    + by destruct (Hmin0 pre s name Hcode Hlt).
    + assert (s = s0) as -> by (apply (Hsplit pre pre0); congruence).
      apply scan_declares in Hd, Hd0. congruence.
    + by destruct (Hmin pre0 s0 name0 Hcode0 Hgt).
  - by destruct (Hnone0 pre s name Hcode).
  - by destruct (Hnone pre0 s0 name0 Hcode0).
  - done.
Qed.

(** A class name has no separator and no dot in it, so that it is the
    stem of the file named after it. *)
Lemma class_name_identifier code :
  class_name U code = lit "Main" ∨ identifier U (class_name U code).
Proof.
  destruct (class_name_first_public_class code) as [pre s name _ Hd _ | _]; [|by left].
  right. by destruct Hd as (_ & _ & _ & _ & _ & _ & Hn & _).
Qed.

End ClassNameProofs.

(** ** The runs a runner can make *)

(** ** Paths *)

Section Paths.
Variable H : host.
Abbreviation U := (unicode H).

Lemma is_sep_sep : is_sep H (sep H) = true.
Proof. unfold is_sep, sep. by destruct (nt H). Qed.

Lemma below_path_join td name : below H td (path_join H td name).
Proof. exists (sep H), name. split; [apply is_sep_sep | done]. Qed.

Lemma word_not_sep c : Re.is_word U c = true → is_sep H c = false ∧ (c =? 46)%N = false.
Proof. unfold is_sep. intros Hc. destruct (nt H); bools. Qed.

Lemma path_name_plain n : existsb (is_sep H) n = false → path_name H n = n.
Proof. destruct n as [|c n]; [done|]. intros Hn. unfold path_name. by rewrite Hn. Qed.

Lemma path_name_join td n :
  existsb (is_sep H) n = false → path_name H (path_join H td n) = n.
Proof.
  intros Hn. unfold path_join. induction td as [|c td IH].
  - change (path_name H ([] ++ sep H :: n))
      with (if existsb (is_sep H) (sep H :: n) then path_name H n else sep H :: n).
    simpl. rewrite is_sep_sep. simpl. by apply path_name_plain.
  - change (path_name H ((c :: td) ++ sep H :: n))
      with (if existsb (is_sep H) (c :: td ++ sep H :: n)
            then path_name H (td ++ sep H :: n) else c :: td ++ sep H :: n).
    replace (existsb (is_sep H) (c :: td ++ sep H :: n)) with true; [done|].
    symmetry. simpl. rewrite existsb_app. simpl. rewrite is_sep_sep.
    by rewrite !orb_true_r.
Qed.

Lemma rfind_suffix n :
  existsb (λ c, c =? 46)%N n = false →
  rfind 46 (n ++ lit ".java") = Some (length n).
Proof.
  induction n as [|c n IH]; [done|]. simpl. intros [_ Hn]%orb_false_elim.
  by rewrite (IH Hn).
Qed.

Lemma class_name_plain code :
  class_name U code ≠ []
  ∧ existsb (is_sep H) (class_name U code) = false
  ∧ existsb (λ c, c =? 46)%N (class_name U code) = false.
Proof.
  destruct (class_name_identifier U code) as [-> | (c & cs & -> & Hc & Hcs)].
  - split; [done|]. unfold is_sep. by destruct (nt H).
  - split; [done|].
    assert (Hall : Forall (λ x, Re.is_word U x = true) (c :: cs)).
    { constructor; [by apply ident_start_word | done]. }
    clear Hc Hcs. induction Hall as [|x l Hx _ [IH1 IH2]]; [done|].
    destruct (word_not_sep x Hx) as [Hs Hd]. simpl. by rewrite Hs, Hd, IH1, IH2.
Qed.

Lemma class_file_name td code :
  let cname := class_name U code in
  path_name H (path_join H td (cname ++ lit ".java")) = cname ++ lit ".java"
  ∧ path_stem H (path_join H td (cname ++ lit ".java")) = cname.
Proof.
  intros cname. destruct (class_name_plain code) as (Hne & Hsep & Hdot).
  fold cname in Hne, Hsep, Hdot.
  assert (Hn : path_name H (path_join H td (cname ++ lit ".java")) = cname ++ lit ".java").
  { apply path_name_join. rewrite existsb_app, Hsep. unfold is_sep. by destruct (nt H). }
  split; [done|]. unfold path_stem. rewrite Hn, (rfind_suffix _ Hdot).
  rewrite length_app. change (length (lit ".java")) with 5.
  replace ((0 <? length cname) && (length cname <? length cname + 5 - 1)) with true.
  - apply take_app_length.
  - symmetry. apply andb_true_intro. split; apply Nat.ltb_lt; [|lia].
    destruct cname; [done | simpl; lia].
Qed.

End Paths.

Section RunnerShapes.
Variable H : host.

Lemma run_code_python : run_code H (lit "Python") = run_python H.
Proof. reflexivity. Qed.
Lemma run_code_cpp : run_code H (lit "C++") = run_cpp H.
Proof. reflexivity. Qed.
Lemma run_code_java : run_code H (lit "Java") = run_java H.
Proof. reflexivity. Qed.

Lemma new_events_app {A} (m : io A) w l :
  trace (m w).2 = trace w ++ l → new_events m w = l.
Proof. intros E. unfold new_events. rewrite E. apply drop_app_length. Qed.

Lemma Qc_elapsed (a d : Qc) : (a + d - a)%Qc = d.
Proof. ring. Qed.

Lemma trace_rmtree td w : trace (rmtree H td w) = trace w ++ [Rmtree td].
Proof. done. Qed.

Lemma run_python_shape code t w :
  let td := mkdtemp H w in
  let f := path_join H td (lit "main.py") in
  ∃ evs,
    trace (run_python H code t w).2 = trace w ++ evs
    ∧ python_run H td f code (run_args [python_exe H; lit "-u"; f] None (Some t)) t
        (files w) (run_python H code t w).1 evs (run_python H code t w).2.
Proof.
  unfold run_python; exec; eexists;
    (split; [rewrite ?trace_rmtree; simpl; rewrite <- ?app_assoc; reflexivity|]);
    simpl; rewrite ?Qc_elapsed; econstructor; shape_side.
Qed.

Lemma run_cpp_shape code t w :
  _which H (lit "g++") = true →
  let td := mkdtemp H w in
  let cpp := path_join H td (lit "main.cpp") in
  let exe := path_join H td (if nt H then lit "main.exe" else lit "main") in
  ∃ evs,
    trace (run_cpp H code t w).2 = trace w ++ evs
    ∧ compiled_run H td cpp code
        (run_args [lit "g++"; lit "-O2"; lit "-std=c++17"; cpp; lit "-o"; exe] None None)
        (run_args [exe] None (Some t)) t
        (files w) (run_cpp H code t w).1 evs (run_cpp H code t w).2.
Proof.
  intros Hw. unfold run_cpp. rewrite Hw. simpl.
  generalize (if nt H then lit "main.exe" else lit "main"). intros name.
  exec; exit_status; eexists;
    (split; [rewrite ?trace_rmtree; simpl; rewrite <- ?app_assoc; reflexivity|]);
    simpl; rewrite ?Qc_elapsed; econstructor; shape_side.
Qed.

Lemma run_java_shape code t w :
  _which H (lit "javac") && _which H (lit "java") = true →
  let td := mkdtemp H w in
  let cname := class_name (unicode H) code in
  let src := path_join H td (cname ++ lit ".java") in
  ∃ evs,
    trace (run_java H code t w).2 = trace w ++ evs
    ∧ compiled_run H td src code
        (run_args [lit "javac"; src] (Some td) None)
        (run_args [lit "java"; lit "-cp"; td; cname] None (Some t)) t
        (files w) (run_java H code t w).1 evs (run_java H code t w).2.
Proof.
  intros Hw. unfold run_java. rewrite Hw. simpl.
  exec; exit_status; eexists;
    (split; [rewrite ?trace_rmtree; simpl; rewrite <- ?app_assoc; reflexivity|]);
    simpl; rewrite ?Qc_elapsed; econstructor; shape_side.
Qed.

End RunnerShapes.

(** ** What every run looks like *)

Section Cases.
Variable H : host.


Lemma run_code_cases lang code t w : lang ∈ LANGS → run_cases H lang code t w.
Proof.
  unfold LANGS. intros Hl. set_unfold in Hl.
  destruct Hl as [-> | [-> | [-> | []]]].
  - destruct (run_python_shape H code t w) as (evs & Ht & S).
    eapply case_python; rewrite ?run_code_python; eauto using below_path_join; reflexivity.
  - destruct (_which H (lit "g++")) eqn:Hw.
    + destruct (run_cpp_shape H code t w Hw) as (evs & Ht & S).
      eapply case_compiled; rewrite ?run_code_cpp; eauto using below_path_join; reflexivity.
    + apply (case_missing _ _ _ _ _ (lit "g++ not found on PATH.")); [done|].
      rewrite run_code_cpp. unfold run_cpp. by rewrite Hw.
  - destruct (_which H (lit "javac") && _which H (lit "java")) eqn:Hw.
    + destruct (run_java_shape H code t w Hw) as (evs & Ht & S).
      eapply case_compiled; rewrite ?run_code_java; eauto using below_path_join; reflexivity.
    + apply (case_missing _ _ _ _ _ (lit "javac/java not found on PATH.")); [done|].
      rewrite run_code_java. unfold run_java. by rewrite Hw.
Qed.

Lemma new_events_unchanged {A} (m : io A) w r : m w = (r, w) → new_events m w = [].
Proof. intros E. apply new_events_app. rewrite E. simpl. by rewrite app_nil_r. Qed.

Lemma compile_call_compiled lang evs :
  lang ≠ lit "Python" → compile_call lang evs = started evs !! 0.
Proof. intros Hl. unfold compile_call. by rewrite bool_decide_eq_false_2. Qed.

Lemma run_call_compiled lang evs :
  lang ≠ lit "Python" → run_call lang evs = started evs !! 1.
Proof. intros Hl. unfold run_call. by rewrite bool_decide_eq_false_2. Qed.

Lemma compiled_langs lang :
  lang = lit "C++" ∨ lang = lit "Java" → lang ∈ LANGS ∧ lang ≠ lit "Python".
Proof. intros [-> | ->]; (split; [unfold LANGS; set_solver | done]). Qed.

(** *** The temporary directory *)


End Cases.

(** ** The plan of a request and its run *)

Section Planned.
Variable H : host.

Lemma plain_names :
  existsb (is_sep H) (lit "main.py") = false
  ∧ existsb (is_sep H) (lit "main.cpp") = false.
Proof. unfold is_sep. by destruct (nt H). Qed.

Lemma path_name_source lang code w :
  lang ∈ LANGS → path_name H (source_file H lang code w) = source_name H lang code.
Proof.
  unfold LANGS. intros Hl. set_unfold in Hl. unfold source_file.
  destruct Hl as [-> | [-> | [-> | []]]].
  - apply path_name_join, plain_names.
  - apply path_name_join, plain_names.
  - apply class_file_name.
Qed.

Lemma short_names_fit lang code :
  lang = lit "Python" ∨ lang = lit "C++" → name_refused H (source_name H lang code) = false.
Proof. by intros [-> | ->]. Qed.

Lemma tools_found_which lang :
  tools_found H lang
  = if bool_decide (lang = lit "Python") then true
    else if bool_decide (lang = lit "C++") then _which H (lit "g++")
    else _which H (lit "javac") && _which H (lit "java").
Proof.
  unfold tools_found, _which. repeat case_bool_decide; try done;
    repeat match goal with
           | Hs : is_Some _ |- _ => destruct Hs as [? ->]
           | Hs : ¬ is_Some ?x |- _ =>
               destruct x eqn:?; [destruct Hs; by eexists|]; clear Hs
           end; done.
Qed.

(** Every supported request whose tools are there goes as planned. *)
Lemma run_code_planned lang code t w :
  lang ∈ LANGS →
  tools_found H lang = true →
  ∃ evs,
    trace (run_code H lang code t w).2 = trace w ++ evs
    ∧ if bool_decide (lang = lit "Python")
      then python_run H (mkdtemp H w) (source_file H lang code w) code
             (run_cmd H lang code t w) t (files w)
             (run_code H lang code t w).1 evs (run_code H lang code t w).2
      else compiled_run H (mkdtemp H w) (source_file H lang code w) code
             (compile_cmd H lang code w) (run_cmd H lang code t w) t (files w)
             (run_code H lang code t w).1 evs (run_code H lang code t w).2.
Proof.
  unfold LANGS. intros Hl. set_unfold in Hl. rewrite tools_found_which.
  destruct Hl as [-> | [-> | [-> | []]]]; intros Hw.
  - apply (run_python_shape H code t w).
  - apply (run_cpp_shape H code t w Hw).
  - apply (run_java_shape H code t w Hw).
Qed.

Lemma python_name_fits code w :
  name_refused H (path_name H (source_file H (lit "Python") code w)) = false.
Proof.
  rewrite path_name_source by (unfold LANGS; set_solver).
  apply short_names_fit. by left.
Qed.

End Planned.

(** Read a run against what the host is known to answer. *)
Ltac against_host :=
  unfold with_source, leaving, outlives, source_fits in *;
  destruct_and?; simplify_eq/=;
  repeat match goal with
         | E : behave ?h ?c ?fs = _, E' : behave ?h ?c ?fs = _ |- _ =>
             rewrite E in E'; simplify_eq/=
         | E : behave ?h ?c ?fs = _, E' : behave ?h ?c ?fs ≠ _ |- _ =>
             rewrite E in E'
         | E : behave ?h ?c ?fs = _, E' : context [behave ?h ?c ?fs] |- _ =>
             rewrite E in E'; simpl in E'
         end;
  try done; try congruence; try lia.

(** ** The claims about results *)

Section Results.
Variable H : host.

(** C3, amended: for a C++ or Java request whose tools are found and whose
    source goes into its file, when the compiler ends with a non-zero
    status and text on its streams, the runner returns ok = False, that
    text as stdout and stderr, time_s = 0 and the time the compiler took;
    what it did is: make the directory, write the source, start the
    compiler and see it end, remove the directory.  No run-phase process
    is started. *)
Theorem compile_failure_short_circuits lang code t w d p fx :
  lang = lit "C++" ∨ lang = lit "Java" →
  tools_found H lang = true →
  source_fits H lang code →
  behave H (compile_cmd H lang code w) (with_source H lang code w) = Exits d p fx →
  returncode p ≠ 0%Z →
  (run_code H lang code t w).1 =
    Val {| ok := false; stdout := p_stdout p; stderr := p_stderr p;
           time_s := 0%Qc; compile_time_s := d |}
  ∧ new_events (run_code H lang code t) w
    = [Mkdtemp (mkdtemp H w); WriteText (source_file H lang code w) code;
       Started (compile_cmd H lang code w);
       Exited (compile_cmd H lang code w) d p; Rmtree (mkdtemp H w)].
Proof.
  intros Hl Hw [Hfit Hs] Hb Hrc. destruct (compiled_langs lang Hl) as [Hin Hnp].
  destruct (run_code_planned H lang code t w Hin Hw) as (evs & Ht & S).
  rewrite bool_decide_eq_false_2 in S by done.
  rewrite (new_events_app _ _ _ Ht).
  rewrite <- (path_name_source H lang code w Hin) in Hfit.
  destruct (run_code H lang code t w) as [r w']. simpl in *.
  destruct S; against_host.
Qed.


(** C8: in a C++ or Java request every process started is either the
    compile call, which carries no timeout at all, or the run call, which
    carries the caller's timeout. *)
Theorem timeout_on_run_phase_only lang code t w c :
  lang = lit "C++" ∨ lang = lit "Java" →
  c ∈ started (new_events (run_code H lang code t) w) →
  (compile_call lang (new_events (run_code H lang code t) w) = Some c
   ∧ timeout c = None)
  ∨ (run_call lang (new_events (run_code H lang code t) w) = Some c
     ∧ timeout c = Some t).
Proof.
  intros Hl. destruct (compiled_langs lang Hl) as [Hin Hnp].
  destruct (run_code_cases H lang code t w Hin)
    as [msg _ E | ? ? ? ? Hp | td src cc rc evs _ Hcc Hrc _ Ht S]; [| done |].
  - rewrite (new_events_unchanged _ _ _ E). simpl. by intros ?%elem_of_nil.
  - rewrite (new_events_app _ _ _ Ht), compile_call_compiled, run_call_compiled by done.
    destruct (run_code H lang code t w) as [r w']. simpl in *.
    destruct S; simpl; intros Hc; set_unfold in Hc;
      destruct_or?; simplify_eq/=; auto.
Qed.


(** C4: when g++ (for C++), or javac or java (for Java), is not on the
    search path, the runner returns at once: ok = False, empty stdout, a
    message in stderr that names the tool, both times 0, and the world is
    left as it was: no file made, no process started. *)
Theorem missing_toolchain_short_circuits lang tool code t w :
  (lang = lit "C++" ∧ tool = lit "g++")
  ∨ (lang = lit "Java" ∧ (tool = lit "javac" ∨ tool = lit "java")) →
  shutil_which H tool = None →
  ∃ msg,
    run_code H lang code t w =
      (Val {| ok := false; stdout := []; stderr := msg;
              time_s := 0%Qc; compile_time_s := 0%Qc |}, w)
    ∧ ∃ a b, msg = a ++ tool ++ b.
Proof.
  intros [[-> ->] | [-> [-> | ->]]] Hw.
  - exists (lit "g++ not found on PATH."). split.
    + rewrite run_code_cpp. unfold run_cpp, _which. by rewrite Hw.
    + by exists [], (lit " not found on PATH.").
  - exists (lit "javac/java not found on PATH."). split.
    + rewrite run_code_java. unfold run_java, _which. by rewrite Hw.
    + by exists [], (lit "/java not found on PATH.").
  - exists (lit "javac/java not found on PATH."). split.
    + rewrite run_code_java. unfold run_java, _which. rewrite Hw.
      by rewrite andb_false_r.
    + by exists (lit "javac/"), (lit " not found on PATH.").
Qed.

(** C10: for a language tag other than Python, C++ and Java the
    dispatcher returns ok = False, empty stdout, the message Unsupported
    followed by the tag, both times 0, and leaves the world as it was. *)
Theorem unsupported_language lang code t w :
  lang ∉ LANGS →
  run_code H lang code t w =
    (Val {| ok := false; stdout := []; stderr := lit "Unsupported: " ++ lang;
            time_s := 0%Qc; compile_time_s := 0%Qc |}, w).
Proof.
  unfold LANGS. intros Hl. set_unfold in Hl. unfold run_code.
  rewrite !bool_decide_eq_false_2 by (intros ->; apply Hl; auto). done.
Qed.

(** X7: when the interpreter is killed at the timeout, [run_python] returns
    the result ok = False, empty stdout, stderr = Timeout, time_s = the
    timeout, compile_time_s = 0. *)
Lemma python_timeout_is_reported code t w c :
  Killed c ∈ new_events (run_python H code t) w →
  (run_python H code t w).1 =
    Val {| ok := false; stdout := []; stderr := lit "Timeout";
           time_s := Qc_of_Z t; compile_time_s := 0%Qc |}.
Proof.
  destruct (run_python_shape H code t w) as (evs & Ht & S).
  rewrite (new_events_app _ _ _ Ht).
  destruct (run_python H code t w) as [r w']. simpl in *.
  destruct S; intros He; set_unfold in He; destruct_or?; simplify_eq/=; done.
Qed.

(** X8: the runners of the compiled languages do not: whenever the
    run-phase process of a C++ or Java request is killed at the timeout,
    the TimeoutExpired of [subprocess.run] leaves the dispatcher. *)
Lemma compiled_timeout_escapes lang code t w c :
  lang = lit "C++" ∨ lang = lit "Java" →
  Killed c ∈ new_events (run_code H lang code t) w →
  (run_code H lang code t w).1 = Exc (TimeoutExpired (argv c) t).
Proof.
  intros Hl. destruct (compiled_langs lang Hl) as [Hin Hnp].
  destruct (run_code_cases H lang code t w Hin)
    as [msg _ E | ? ? ? ? Hp | td src cc rc evs _ Hcc Hrc _ Ht S]; [| done |].
  - rewrite (new_events_unchanged _ _ _ E). by intros ?%elem_of_nil.
  - rewrite (new_events_app _ _ _ Ht).
    destruct (run_code H lang code t w) as [r w']. simpl in *.
    destruct S; intros He; set_unfold in He; destruct_or?; simplify_eq/=; done.
Qed.

(** X9: only the run phase is ever cut short: in a C++ or Java request a
    process that was killed is the run call, never the compiler. *)
Lemma only_run_phase_is_killed lang code t w c :
  lang = lit "C++" ∨ lang = lit "Java" →
  Killed c ∈ new_events (run_code H lang code t) w →
  run_call lang (new_events (run_code H lang code t) w) = Some c.
Proof.
  intros Hl. destruct (compiled_langs lang Hl) as [Hin Hnp].
  destruct (run_code_cases H lang code t w Hin)
    as [msg _ E | ? ? ? ? Hp | td src cc rc evs _ Hcc Hrc _ Ht S]; [| done |].
  - rewrite (new_events_unchanged _ _ _ E). by intros ?%elem_of_nil.
  - rewrite (new_events_app _ _ _ Ht), run_call_compiled by done.
    destruct (run_code H lang code t w) as [r w']. simpl in *.
    destruct S; intros He; set_unfold in He; destruct_or?; simplify_eq/=; done.
Qed.

End Results.

(** ** File names and command lines *)

Section Names.
Variable H : host.

(** C6: on a host that lets the request reach its run phase and start
    the program, the processes started are exactly the ones the
    specification lists, in this order: for C++ g++ -O2 -std=c++17 source
    -o executable and then the executable; for Java javac on the source,
    in the temporary directory, and then java -cp with that directory and
    the class name; for Python the interpreter with -u on the file. *)
Theorem invocations_as_specified lang code t w fs ct :
  lang ∈ LANGS →
  tools_found H lang = true →
  source_fits H lang code →
  reaches_run H lang code w fs ct →
  behave H (run_cmd H lang code t w) fs ≠ NotFound →
  started (new_events (run_code H lang code t) w)
  = (if bool_decide (lang = lit "Python") then [] else [compile_cmd H lang code w])
    ++ [run_cmd H lang code t w].
Proof.
  intros Hin Hw [Hfit Hs] Hreach Hb.
  destruct (run_code_planned H lang code t w Hin Hw) as (evs & Ht & S).
  rewrite (new_events_app _ _ _ Ht).
  rewrite <- (path_name_source H lang code w Hin) in Hfit.
  destruct (run_code H lang code t w) as [r w']. simpl in *.
  destruct Hreach as [-> | d0 p0 fx0 Hnp Hc Hrc].
  - rewrite bool_decide_eq_true_2 in S by done.
    rewrite bool_decide_eq_true_2 by done.
    destruct S; against_host.
  - rewrite bool_decide_eq_false_2 in S by done.
    rewrite bool_decide_eq_false_2 by done.
    destruct S; against_host.
Qed.

(** C5: the class name of a Java source is the name in the first
    public-class declaration of the text, and Main when the text has
    none.  Where javac and java are found and the file system takes the
    name, the file the source is written to is that name followed by
    .java, and its stem is the name; when the compiler can be started it
    is started on that file; when it succeeds and the launcher can be
    started, the launcher is given that name as entry point. *)
Theorem java_class_name_used code t w :
  tools_found H (lit "Java") = true →
  name_refused H (class_name (unicode H) code ++ lit ".java") = false →
  let cname := class_name (unicode H) code in
  let td := mkdtemp H w in
  let src := path_join H td (cname ++ lit ".java") in
  let javac := {| argv := [lit "javac"; src]; capture_output := true; text := true;
                  cwd := Some td; timeout := None |} in
  let java := {| argv := [lit "java"; lit "-cp"; td; cname]; capture_output := true;
                 text := true; cwd := None; timeout := Some t |} in
  first_public_class (unicode H) code cname
  ∧ (∀ n, first_public_class (unicode H) code n → n = cname)
  ∧ (∃ content, take 2 (new_events (run_java H code t) w)
                = [Mkdtemp td; WriteText src content])
  ∧ path_name H src = cname ++ lit ".java"
  ∧ path_stem H src = cname
  ∧ (existsb is_surrogate code = false →
     behave H javac (<[src := code]> (files w)) ≠ NotFound →
     head (started (new_events (run_java H code t) w)) = Some javac)
  ∧ (existsb is_surrogate code = false →
     ∀ d p fx,
       behave H javac (<[src := code]> (files w)) = Exits d p fx →
       returncode p = 0%Z →
       behave H java (leaving fx (<[src := code]> (files w))) ≠ NotFound →
       started (new_events (run_java H code t) w) = [javac; java]).
Proof.
  intros Hw Hfit cname td src javac java.
  split; [apply class_name_first_public_class|].
  split; [apply first_public_class_unique|].
  destruct (class_file_name H td code) as [Hname Hstem].
  fold cname in Hname, Hstem. fold src in Hname, Hstem.
  rewrite tools_found_which in Hw.
  destruct (run_java_shape H code t w Hw) as (evs & Ht & S).
  rewrite (new_events_app _ _ _ Ht).
  fold cname td in S. fold src in S. fold cname in Hfit. rewrite <- Hname in Hfit.
  change (run_args [lit "javac"; src] (Some td) None) with javac in S.
  change (run_args [lit "java"; lit "-cp"; td; cname] None (Some t)) with java in S.
  clearbody javac java.
  destruct (run_java H code t w) as [r w']. simpl in *.
  destruct S; (split; [first [by eexists | congruence]|]);
    (split; [done|]); (split; [done|]);
    (split; [intros ? ? | intros ? ? ? ? ? ? ?]); against_host.
Qed.

End Names.

(** ** The claims at concrete requests *)

Ltac here := vm_compute; repeat first [apply list_elem_of_here | apply list_elem_of_further].

Lemma compile_failure_short_circuits_witness :
  ((run_code rejecting_host (lit "C++") hello_cpp 5 empty_world).1 =
     Val {| ok := false;
            stdout := p_stdout (process 1 "" "error: expected ';'");
            stderr := p_stderr (process 1 "" "error: expected ';'");
            time_s := 0%Qc; compile_time_s := Qc_of_Z 2 |}
   ∧ new_events (run_code rejecting_host (lit "C++") hello_cpp 5) empty_world
     = [Mkdtemp (lit "/tmp/tmpk3");
        WriteText (lit "/tmp/tmpk3/main.cpp") hello_cpp;
        Started gpp_call;
        Exited gpp_call (Qc_of_Z 2) (process 1 "" "error: expected ';'");
        Rmtree (lit "/tmp/tmpk3")])
  ∧ ((run_code rejecting_host (lit "Java") hello_java 5 empty_world).1 =
       Val {| ok := false;
              stdout := p_stdout (process 1 "" "error: expected ';'");
              stderr := p_stderr (process 1 "" "error: expected ';'");
              time_s := 0%Qc; compile_time_s := Qc_of_Z 2 |}
     ∧ new_events (run_code rejecting_host (lit "Java") hello_java 5) empty_world
       = [Mkdtemp (lit "/tmp/tmpk3");
          WriteText (lit "/tmp/tmpk3/Hello.java") hello_java;
          Started (javac_call "Hello");
          Exited (javac_call "Hello") (Qc_of_Z 2) (process 1 "" "error: expected ';'");
          Rmtree (lit "/tmp/tmpk3")]).
Proof.
  split.
  - apply (compile_failure_short_circuits rejecting_host (lit "C++") hello_cpp 5
             empty_world (Qc_of_Z 2) (process 1 "" "error: expected ';'") []).
    + by left.
    + reflexivity.
    + split; reflexivity.
    + vm_compute. reflexivity.
    + vm_compute. discriminate.
  - apply (compile_failure_short_circuits rejecting_host (lit "Java") hello_java 5
             empty_world (Qc_of_Z 2) (process 1 "" "error: expected ';'") []).
    + by right.
    + reflexivity.
    + split; reflexivity.
    + vm_compute. reflexivity.
    + vm_compute. discriminate.
Defined.

(** C3 as stated fails where the diagnostics are no text in the encoding
    of the locale: the compiler ends with status 1, and [run_code] raises
    UnicodeDecodeError instead of returning a result. *)
Lemma binary_diagnostics_raise :
  ExitedBinary gpp_call (Qc_of_Z 2) 1
    ∈ new_events (run_code binary_diagnostics_host (lit "C++") hello_cpp 5) empty_world
  ∧ (run_code binary_diagnostics_host (lit "C++") hello_cpp 5 empty_world).1
    = Exc UnicodeDecodeError.
Proof. split; [here | vm_compute; reflexivity]. Qed.



Lemma timeout_on_run_phase_only_witness :
  (compile_call (lit "C++")
     (new_events (run_code working_host (lit "C++") hello_cpp 5) empty_world)
   = Some (binary_call 5) ∧ timeout (binary_call 5) = None)
  ∨ (run_call (lit "C++")
       (new_events (run_code working_host (lit "C++") hello_cpp 5) empty_world)
     = Some (binary_call 5) ∧ timeout (binary_call 5) = Some 5%Z).
Proof.
  apply (timeout_on_run_phase_only working_host (lit "C++") hello_cpp 5 empty_world
           (binary_call 5)).
  - by left.
  - here.
Defined.


Lemma missing_toolchain_short_circuits_witness :
  ∃ msg,
    run_code bare_host (lit "Java") hello_java 5 empty_world =
      (Val {| ok := false; stdout := []; stderr := msg;
              time_s := 0%Qc; compile_time_s := 0%Qc |}, empty_world)
    ∧ ∃ a b, msg = a ++ lit "java" ++ b.
Proof.
  apply (missing_toolchain_short_circuits bare_host (lit "Java") (lit "java")
           hello_java 5 empty_world).
  - right. split; [reflexivity | by right].
  - reflexivity.
Defined.

Lemma unsupported_language_witness :
  run_code working_host (lit "Rust") (lit "fn main() {}") 5 empty_world =
    (Val {| ok := false; stdout := []; stderr := lit "Unsupported: " ++ lit "Rust";
            time_s := 0%Qc; compile_time_s := 0%Qc |}, empty_world).
Proof.
  apply (unsupported_language working_host (lit "Rust") (lit "fn main() {}") 5
           empty_world).
  unfold LANGS. intros Hin. set_unfold in Hin. by destruct_or?.
Defined.

Lemma invocations_as_specified_witness :
  started (new_events (run_code working_host (lit "Python") (lit "print(1)") 5)
             empty_world)
  = [python_call 5]
  ∧ started (new_events (run_code working_host (lit "C++") hello_cpp 5) empty_world)
    = [gpp_call; binary_call 5]
  ∧ started (new_events (run_code working_host (lit "Java") hello_java 5) empty_world)
    = [javac_call "Hello"; java_call "Hello" 5].
Proof.
  split; [|split].
  - apply (invocations_as_specified working_host (lit "Python") (lit "print(1)") 5
             empty_world
             (with_source working_host (lit "Python") (lit "print(1)") empty_world)
             0%Qc).
    + unfold LANGS. here.
    + reflexivity.
    + split; reflexivity.
    + by apply reaches_interpreted.
    + vm_compute. discriminate.
  - apply (invocations_as_specified working_host (lit "C++") hello_cpp 5 empty_world
             (leaving [(lit "/tmp/tmpk3/main", lit "ELF")]
                (with_source working_host (lit "C++") hello_cpp empty_world))
             (Qc_of_Z 2)).
    + unfold LANGS. here.
    + reflexivity.
    + split; reflexivity.
    + apply (reaches_compiled working_host (lit "C++") hello_cpp empty_world
               (Qc_of_Z 2) (process 0 "" "")).
      * discriminate.
      * vm_compute. reflexivity.
      * reflexivity.
    + vm_compute. discriminate.
  - apply (invocations_as_specified working_host (lit "Java") hello_java 5 empty_world
             (leaving [(lit "/tmp/tmpk3/main", lit "ELF")]
                (with_source working_host (lit "Java") hello_java empty_world))
             (Qc_of_Z 2)).
    + unfold LANGS. here.
    + reflexivity.
    + split; reflexivity.
    + apply (reaches_compiled working_host (lit "Java") hello_java empty_world
               (Qc_of_Z 2) (process 0 "" "")).
      * discriminate.
      * vm_compute. reflexivity.
      * reflexivity.
    + vm_compute. discriminate.
Defined.

Lemma java_class_name_used_witness :
  started (new_events (run_java working_host hello_java 5) empty_world)
  = [javac_call "Hello"; java_call "Hello" 5].
Proof.
  destruct (java_class_name_used working_host hello_java 5 empty_world)
    as (_ & _ & _ & _ & _ & _ & Hrun); [reflexivity | reflexivity |].
  apply (Hrun eq_refl (Qc_of_Z 2) (process 0 "" "")
           [(lit "/tmp/tmpk3/main", lit "ELF")]).
  - vm_compute. reflexivity.
  - reflexivity.
  - vm_compute. discriminate.
Defined.

Example class_name_Hello : class_name ascii_only hello_java = lit "Hello".
Proof. reflexivity. Qed.

(** C1: the claim fails for C++.  With a compiler that succeeds and a
    program that outlives a timeout of one second, [run_code] returns no
    dictionary at all: the [TimeoutExpired] of [subprocess.run] reaches the
    caller, where [run_python] would have returned the Timeout result. *)
Lemma cpp_timeout_raises :
  (run_code looping_host (lit "C++") loop_cpp 1 empty_world).1
  = Exc (TimeoutExpired [lit "/tmp/tmpk3/main"] 1).
Proof. vm_compute. reflexivity. Qed.

(** C2: the claim fails for Java.  A run-phase timeout is an ordinary
    failure, and [run_code] raises on it instead of returning a result. *)
Lemma java_timeout_raises :
  (run_code looping_host (lit "Java") loop_java 1 empty_world).1
  = Exc (TimeoutExpired [lit "java"; lit "-cp"; lit "/tmp/tmpk3"; lit "Spin"] 1).
Proof. vm_compute. reflexivity. Qed.

(** The same program under the interpreter runner gives the result the
    specification describes. *)
Example python_timeout_result :
  (run_code looping_host (lit "Python") (lit "while True: pass") 1 empty_world).1
  = Val {| ok := false; stdout := []; stderr := lit "Timeout";
           time_s := Qc_of_Z 1; compile_time_s := 0%Qc |}.
Proof.
  rewrite run_code_python.
  apply (python_timeout_is_reported looping_host _ 1 empty_world
           (run_args [lit "/usr/bin/python3"; lit "-u"; lit "/tmp/tmpk3/main.py"]
              None (Some 1%Z))).
  here.
Defined.

(** A compiler that never ends keeps the caller waiting whatever the
    timeout is. *)
Example stuck_compiler_blocks :
  (run_code stuck_compiler_host (lit "C++") hello_cpp 1 empty_world).1 = Never.
Proof. vm_compute. reflexivity. Qed.

(** ** Fenced code in a reply *)

Example extract_code_fenced :
  extract_code ascii_only (lit "Here: ```cpp
int x;
``` done") = lit "int x;".
Proof. reflexivity. Qed.

Example extract_code_plain :
  extract_code ascii_only (lit "  int x;  ") = lit "int x;".
Proof. reflexivity. Qed.

Example extract_code_unclosed :
  extract_code ascii_only (lit "```cpp
int x;") = lit "```cpp
int x;".
Proof. reflexivity. Qed.

Section FenceProofs.
Variable U : unicode_db.

Lemma marker_prefix s : is_Some (strip marker s) ↔ marker `prefix_of` s.
Proof.
  split.
  - intros [s' Hs]. apply strip_Some in Hs. by exists s'.
  - intros [s' ->]. rewrite strip_app. by eexists.
Qed.

Lemma marker_prefix_3 (u x y : str) :
  3 ≤ length u → marker `prefix_of` u ++ x → marker `prefix_of` u ++ y.
Proof.
  intros Hu [k Hk].
  destruct u as [|a [|b [|c u]]]; simpl in Hu; try lia.
  injection Hk as -> -> -> Hk. by exists (u ++ y).
Qed.

(** *** The scanner *)

Lemma until_marker_Some s body :
  until_marker s = Some body ↔
    ∃ rest, s = body ++ marker ++ rest
            ∧ ∀ j, j < length body → ¬ marker `prefix_of` drop j s.
Proof.
  revert body. induction s as [|c s IH]; intros body.
  - split; [done|]. intros (rest & Hs & _).
    symmetry in Hs. apply app_eq_nil in Hs as [_ Hs]. done.
  - change (until_marker (c :: s))
      with (match strip marker (c :: s) with
            | Some _ => Some []
            | None => cons c <$> until_marker s
            end).
    destruct (strip marker (c :: s)) as [rest|] eqn:E.
    + split.
      * intros [= <-]. exists rest. split; [by apply strip_Some in E|]. simpl. lia.
      * intros (rest' & Hs & Hfirst). destruct body as [|b body]; [done|].
        destruct (Hfirst 0); [simpl; lia|]. simpl. apply marker_prefix. by eexists.
    + split.
      * intros (b & Eu & ->)%fmap_Some.
        apply IH in Eu as (rest & -> & Hfirst). exists rest. split; [done|].
        intros [|j] Hj.
        -- rewrite drop_0. intros Hp%marker_prefix. rewrite E in Hp. by destruct Hp.
        -- change (drop (S j) ((c :: b) ++ marker ++ rest))
             with (drop j (b ++ marker ++ rest)).
           apply Hfirst. simpl in Hj. lia.
      * intros (rest & Hs & Hfirst). destruct body as [|b body].
        -- change ([] ++ marker ++ rest) with (marker ++ rest) in Hs.
           rewrite Hs, strip_app in E. done.
        -- change ((b :: body) ++ marker ++ rest)
             with (b :: (body ++ marker ++ rest)) in Hs.
           assert (c = b ∧ s = body ++ marker ++ rest) as [-> ->]
             by (split; congruence).
           assert (until_marker (body ++ marker ++ rest) = Some body) as ->; [|done].
           apply IH. exists rest. split; [done|]. intros j Hj.
           apply (Hfirst (S j)). simpl. lia.
Qed.

Lemma tag_not_newline c : is_fence_tag c = true → (10 =? c)%N = false.
Proof. unfold is_fence_tag. intros Hc. bools. Qed.

Lemma scan_fence_fenced s body : scan_fence s = Some body ↔ fenced s body.
Proof.
  unfold scan_fence, fenced. split.
  - destruct (strip marker s) as [s1|] eqn:E1; cbn [mbind option_bind]; [|done].
    apply strip_Some in E1 as ->.
    pose proof (take_drop_while is_fence_tag s1) as Hs1.
    pose proof (take_while_all is_fence_tag s1) as Htag.
    destruct (drop_while is_fence_tag s1) as [|c s2]; [done|].
    destruct (N.eqb_spec 10 c) as [<-|]; [|done].
    intros (rest & -> & Hfirst)%until_marker_Some.
    set (tag := take_while is_fence_tag s1) in *. clearbody tag.
    exists tag, rest. by rewrite <- Hs1.
  - intros (tag & rest & -> & Htag & Hfirst).
    rewrite strip_app. cbn [mbind option_bind].
    destruct (drop_while_app is_fence_tag tag ([10%N] ++ body ++ marker ++ rest) Htag)
      as [-> _]; [done|].
    simpl. apply until_marker_Some. by exists rest.
Qed.

(** *** The matcher computes the scanner *)

Lemma rmatch_closing s (g : option str) :
  Re.rmatch (Re.chars (lit "``") (Re.Chr 96)) s g (λ _ g', Some g') =
    match strip marker s with
    | Some _ => Some g
    | None => None
    end.
Proof.
  rewrite rmatch_chars.
  change (lit "``") with [96%N; 96%N]. change marker with [96%N; 96%N; 96%N].
  destruct s as [|a [|b [|c s]]]; cbn [strip Re.rmatch]; try done.
  - by destruct (96 =? a)%N.
  - by destruct (96 =? a)%N, (96 =? b)%N.
  - by destruct (96 =? a)%N, (96 =? b)%N, (96 =? c)%N.
Qed.

Lemma lazy_ext {A} p (k k' : str → option A) s :
  (∀ s', k s' = k' s') → ReS.lazy p k s = ReS.lazy p k' s.
Proof.
  intros Hk. induction s as [|c s IH]; simpl; rewrite Hk; [done|].
  by rewrite IH.
Qed.

Lemma lazy_until_marker full pre s :
  full = pre ++ s →
  ReS.lazy (λ _, true)
    (λ s', match strip marker s' with
           | Some _ => Some (Some (take (length full - length s') full))
           | None => None
           end) s
  = (λ b, Some (pre ++ b)) <$> until_marker s.
Proof.
  intros ->. revert pre. induction s as [|c s IH]; intros pre.
  - done.
  - change (until_marker (c :: s))
      with (match strip marker (c :: s) with
            | Some _ => Some []
            | None => cons c <$> until_marker s
            end).
    cbn [ReS.lazy].
    destruct (strip marker (c :: s)) as [rest|] eqn:E.
    + cbn [fmap option_fmap option_map]. do 2 f_equal. rewrite app_nil_r, length_app.
      replace (length pre + length (c :: s) - length (c :: s)) with (length pre) by lia.
      apply take_app_length.
    + specialize (IH (pre ++ [c])). rewrite <- (app_assoc pre [c] s) in IH.
      change ([c] ++ s) with (c :: s) in IH.
      rewrite IH. destruct (until_marker s); cbn [fmap option_fmap option_map]; [|done].
      by rewrite <- app_assoc.
Qed.

Lemma match_fence s : ReS.match_ fence_re s = Some <$> scan_fence s.
Proof.
  unfold ReS.match_, fence_re, scan_fence. cbn [ReS.rmatch].
  rewrite rmatch_chars. fold marker.
  destruct (strip marker s) as [s1|]; cbn [mbind option_bind]; [|done].
  rewrite rmatch_cat. cbn [Re.rmatch].
  rewrite (greedy_all is_fence_tag).
  2:{ intros c s' Hc. by rewrite (tag_not_newline c Hc). }
  destruct (drop_while is_fence_tag s1) as [|c s2]; [done|].
  destruct (10 =? c)%N; [|done].
  etransitivity; [|etransitivity; [apply (lazy_until_marker s2 [] s2 eq_refl)|]].
  - apply lazy_ext. intros s'. apply rmatch_closing.
  - by destruct (until_marker s2).
Qed.

End FenceProofs.

Section ExtractCode.
Variable U : unicode_db.

(** *** Searching *)

Lemma searchS_spec r s :
  match ReS.search r s with
  | Some g =>
      ∃ pre s', s = pre ++ s' ∧ ReS.match_ r s' = Some g
        ∧ ∀ pre' s'', s = pre' ++ s'' → length pre' < length pre →
                      ReS.match_ r s'' = None
  | None => ∀ pre s', s = pre ++ s' → ReS.match_ r s' = None
  end.
Proof.
  induction s as [|c s IH]; cbn [ReS.search].
  - destruct (ReS.match_ r []) as [g|] eqn:E.
    + exists [], []. split; [done|]. split; [done|]. simpl. lia.
    + intros pre s' Hs. symmetry in Hs. apply app_eq_nil in Hs as [-> ->]. done.
  - destruct (ReS.match_ r (c :: s)) as [g|] eqn:E.
    + exists [], (c :: s). split; [done|]. split; [done|]. simpl. lia.
    + destruct (ReS.search r s) as [g|].
      * destruct IH as (pre & s' & -> & Hm & Hmin).
        exists (c :: pre), s'. split; [done|]. split; [done|].
        intros [|c' pre'] s'' Hs Hlen; simpl in Hs, Hlen.
        -- by subst s''.
        -- injection Hs as -> Hs. apply (Hmin pre' s'' Hs). lia.
      * intros [|c' pre] s' Hs; simpl in Hs.
        -- by subst s'.
        -- injection Hs as -> Hs. by apply (IH pre s').
Qed.

(** How [extract_code] goes: it finds the first fenced block and strips
    its body, or finds none and strips the text. *)
Lemma extract_code_cases text :
  (∃ pre s body,
      text = pre ++ s ∧ fenced s body
      ∧ (∀ pre' s' b', text = pre' ++ s' → length pre' < length pre → ¬ fenced s' b')
      ∧ extract_code U text = str_strip U body)
  ∨ ((∀ pre s b, text = pre ++ s → ¬ fenced s b)
     ∧ extract_code U text = str_strip U text).
Proof.
  unfold extract_code. pose proof (searchS_spec fence_re text) as Hs.
  destruct (ReS.search fence_re text) as [g|].
  - destruct Hs as (pre & s' & -> & Hm & Hmin). rewrite match_fence in Hm.
    destruct (scan_fence s') as [body|] eqn:E; [|done]. injection Hm as <-.
    left. exists pre, s', body. split; [done|]. split; [by apply scan_fence_fenced|].
    split; [|done]. intros pre' s'' b' Hs Hlen Hf. apply scan_fence_fenced in Hf.
    specialize (Hmin pre' s'' Hs Hlen). rewrite match_fence, Hf in Hmin. done.
  - right. split; [|done]. intros pre s b Ht Hf. apply scan_fence_fenced in Hf.
    specialize (Hs pre s Ht). rewrite match_fence, Hf in Hs. done.
Qed.

(** X1: the text [extract_code] reduces a reply to is the body of the first
    fenced block of the reply (marker, tag, newline, body up to the next
    marker), stripped; when the reply has no such block it is the whole
    reply, stripped. *)
Theorem extract_code_first_fenced text x :
  first_fenced text x → extract_code U text = str_strip U x.
Proof.
  intros Hx.
  assert (Hsplit : ∀ (p1 p2 s1 s2 : str),
             p1 ++ s1 = p2 ++ s2 → length p1 = length p2 → s1 = s2).
  { intros p1 p2 s1 s2 He Hl. by apply app_inj_1 in He as [_ ?]. }
  destruct (extract_code_cases text)
    as [(pre0 & s0 & body0 & Ht0 & Hf0 & Hmin0 & ->) | [Hn0 ->]];
    destruct Hx as [pre s body Ht Hf Hmin | Hn].
  - destruct (lt_eq_lt_dec (length pre) (length pre0)) as [[Hlt|Heq]|Hgt].
    + by destruct (Hmin0 pre s body Ht Hlt).
    + assert (s = s0) as -> by (apply (Hsplit pre pre0); congruence).
      apply scan_fence_fenced in Hf, Hf0. congruence.
    + by destruct (Hmin pre0 s0 body0 Ht0 Hgt).
  - by destruct (Hn pre0 s0 body0 Ht0).
  - by destruct (Hn0 pre s body Ht).
  - done.
Qed.

(** *** Stripping *)

Lemma str_strip_split s :
  ∃ l r, s = l ++ str_strip U s ++ r
         ∧ Forall (λ c, Re.is_space U c = true) l
         ∧ Forall (λ c, Re.is_space U c = true) r.
Proof.
  unfold str_strip, str_rstrip, str_lstrip.
  set (t := drop_while (Re.is_space U) s).
  exists (take_while (Re.is_space U) s),
         (reverse (take_while (Re.is_space U) (reverse t))).
  split; [|split].
  - rewrite <- reverse_app, take_drop_while, reverse_involutive.
    symmetry. apply take_drop_while.
  - apply take_while_all.
  - apply Forall_reverse, take_while_all.
Qed.

Lemma drop_while_head p s c : head (drop_while p s) = Some c → p c = false.
Proof. intros Hc. pose proof (drop_while_stops p s) as Hs.
       destruct (drop_while p s); [done|]. by injection Hc as ->. Qed.

Lemma drop_while_id p s : (∀ c, head s = Some c → p c = false) → drop_while p s = s.
Proof. destruct s as [|c s]; [done|]. intros Hc. simpl. by rewrite (Hc c). Qed.

Lemma head_app_prefix (a b : str) c : head a = Some c → head (a ++ b) = Some c.
Proof. by destruct a. Qed.

Lemma str_strip_trimmed s : trimmed U (str_strip U s).
Proof.
  unfold str_strip, str_rstrip, str_lstrip.
  set (t := drop_while (Re.is_space U) s). split.
  - intros c Hc. apply (drop_while_head (Re.is_space U) s c).
    fold t.
    rewrite <- (reverse_involutive t), <- (take_drop_while (Re.is_space U) (reverse t)).
    rewrite reverse_app. by apply head_app_prefix.
  - intros c Hc. rewrite last_reverse in Hc.
    by apply (drop_while_head (Re.is_space U) (reverse t) c).
Qed.

Lemma trimmed_str_strip s : trimmed U s → str_strip U s = s.
Proof.
  intros [Hh Hl]. unfold str_strip, str_rstrip, str_lstrip.
  rewrite (drop_while_id _ s Hh). rewrite drop_while_id.
  - apply reverse_involutive.
  - intros c Hc. apply Hl. by rewrite <- (reverse_involutive s), last_reverse.
Qed.

End ExtractCode.

Lemma first_fenced_exists text : ∃ x, first_fenced text x.
Proof.
  destruct (extract_code_cases ascii_only text) as [(pre & s & body & Ht & Hf & Hmin & _) | [Hn _]].
  - exists body. by apply (ff_found text pre s body).
  - exists text. by apply ff_none.
Qed.


Section ExtractCodeProperties.
Variable U : unicode_db.

Lemma marker_length : length marker = 3.
Proof. reflexivity. Qed.

Lemma fenced_occurs s body : fenced s body → ∃ b c, s = marker ++ b ++ marker ++ c.
Proof.
  intros (tag & rest & -> & _ & _). exists (tag ++ [10%N] ++ body), rest.
  by rewrite <- !app_assoc.
Qed.

Lemma fenced_app s body x : fenced s body → fenced (s ++ x) body.
Proof.
  intros (tag & rest & -> & Htag & Hfirst). exists tag, (rest ++ x).
  split; [by rewrite <- !app_assoc|]. split; [done|].
  intros j Hj Hp. apply (Hfirst j Hj).
  rewrite drop_app_le in Hp |- * by lia.
  rewrite (app_assoc _ marker rest). rewrite (app_assoc _ marker (rest ++ x)) in Hp.
  revert Hp. apply marker_prefix_3. rewrite length_app, marker_length. lia.
Qed.

Lemma fenced_body_clean s body l x r :
  fenced s body → body = l ++ x ++ r → ¬ occurs marker x.
Proof.
  intros (tag & rest & _ & _ & Hfirst) -> (a & b & ->).
  apply (Hfirst (length (l ++ a))).
  - rewrite !length_app, marker_length. lia.
  - rewrite <- !app_assoc, (app_assoc l a), drop_app_length. by eexists.
Qed.

Lemma extract_code_strips text : ∃ x, extract_code U text = str_strip U x.
Proof.
  destruct (extract_code_cases U text) as [(_ & _ & body & _ & _ & _ & ->) | [_ ->]];
    eauto.
Qed.

(** X2: whatever the reply, the extracted code neither begins nor ends with
    white space. *)
Theorem extract_code_trimmed text : trimmed U (extract_code U text).
Proof.
  destruct (extract_code_cases U text) as [(_ & _ & body & _ & _ & _ & ->) | [_ ->]];
    apply str_strip_trimmed.
Qed.

(** X6: the extracted code is a contiguous piece of the reply: nothing is
    added, reordered or left out in the middle. *)
Theorem extract_code_infix text : ∃ a b, text = a ++ extract_code U text ++ b.
Proof.
  destruct (extract_code_cases U text)
    as [(pre & s & body & -> & (tag & rest & -> & _ & _) & _ & ->) | [_ ->]].
  - destruct (str_strip_split U body) as (l & r & Hb & _ & _).
    exists (pre ++ marker ++ tag ++ [10%N] ++ l), (r ++ marker ++ rest).
    rewrite Hb at 1. by rewrite <- !app_assoc.
  - destruct (str_strip_split U text) as (l & r & Ht & _ & _). by exists l, r.
Qed.

(** X3: a reply with fewer than two fence markers, such as one whose block
    was never closed, is kept whole (and stripped), marker line included. *)
Theorem extract_code_needs_two_markers text :
  (¬ ∃ a b c, text = a ++ marker ++ b ++ marker ++ c) →
  extract_code U text = str_strip U text.
Proof.
  intros Hno.
  destruct (extract_code_cases U text) as [(pre & s & body & -> & Hf & _) | [_ ->]];
    [|done].
  destruct Hno. apply fenced_occurs in Hf as (b & c & ->). by exists pre, b, c.
Qed.

(** X4: when the reply holds a fenced block, the extracted code contains no
    fence marker. *)
Theorem extract_code_has_no_marker text :
  (∃ pre s body, text = pre ++ s ∧ fenced s body) →
  ¬ occurs marker (extract_code U text).
Proof.
  intros (pre & s & body & Ht & Hf).
  destruct (extract_code_cases U text) as [(_ & s0 & body0 & _ & Hf0 & _ & ->) | [Hn _]].
  - destruct (str_strip_split U body0) as (l & r & Hb & _ & _).
    apply (fenced_body_clean s0 body0 l _ r Hf0 Hb).
  - by destruct (Hn pre s body Ht).
Qed.

Lemma extract_code_clean x :
  trimmed U x → (∀ pre s b, x = pre ++ s → ¬ fenced s b) → extract_code U x = x.
Proof.
  intros Hx Hn.
  destruct (extract_code_cases U x) as [(pre & s & body & Ht & Hf & _) | [_ ->]].
  - by destruct (Hn pre s body Ht).
  - by apply trimmed_str_strip.
Qed.

(** X5: extracting twice gives what extracting once gives. *)
Theorem extract_code_idempotent text :
  extract_code U (extract_code U text) = extract_code U text.
Proof.
  apply extract_code_clean; [destruct (extract_code_strips text) as [x ->]; apply str_strip_trimmed|].
  intros pre s b Hx Hf.
  destruct (extract_code_cases U text) as [(_ & s0 & body0 & _ & Hf0 & _ & E) | [Hn E]];
    rewrite E in Hx.
  - destruct (str_strip_split U body0) as (l & r & Hb & _ & _).
    apply (fenced_body_clean s0 body0 l _ r Hf0 Hb).
    rewrite Hx. apply fenced_occurs in Hf as (b1 & c1 & ->). by exists pre, (b1 ++ marker ++ c1).
  - destruct (str_strip_split U text) as (l & r & Ht & _ & _).
    apply (Hn (l ++ pre) (s ++ r) b).
    + rewrite Ht at 1. rewrite Hx. by rewrite <- !app_assoc.
    + by apply fenced_app.
Qed.

End ExtractCodeProperties.

Lemma extract_code_first_fenced_witness :
  extract_code ascii_only (lit "```py
x = 1
```") = str_strip ascii_only (lit "x = 1
").
Proof.
  apply (extract_code_first_fenced ascii_only).
  apply (ff_found _ [] (lit "```py
x = 1
```")); [reflexivity | by apply scan_fence_fenced | simpl; lia].
Defined.

Lemma extract_code_needs_two_markers_witness :
  extract_code ascii_only (lit "```x") = str_strip ascii_only (lit "```x").
Proof.
  apply (extract_code_needs_two_markers ascii_only).
  intros (a & b & c & E). apply (f_equal length) in E.
  rewrite !length_app, marker_length in E.
  change (length (lit "```x")) with 4 in E. lia.
Defined.

Lemma extract_code_has_no_marker_witness :
  ¬ occurs marker (extract_code ascii_only (lit "see ```
a```b``` end")).
Proof.
  apply (extract_code_has_no_marker ascii_only).
  exists (lit "see "), (lit "```
a```b``` end"), (lit "a").
  split; [reflexivity | by apply scan_fence_fenced].
Defined.

(** ** More about the runners *)

Section MoreRuns.
Variable H : host.

Lemma dispatch_other lang code t w :
  lang ∉ LANGS →
  run_code H lang code t w = (Val (missing_result (lit "Unsupported: " ++ lang)), w).
Proof.
  unfold LANGS. intros Hl. set_unfold in Hl. unfold run_code.
  rewrite !bool_decide_eq_false_2 by (intros ->; apply Hl; auto). done.
Qed.

(** X10: a result with ok = True means that every process the runner
    started ran to its end with exit status zero, the compiler included,
    and that the run phase was reached; stdout and stderr are those of the
    run-phase process. *)
Theorem success_means_zero_exits lang code t w r :
  lang ∈ LANGS →
  (run_code H lang code t w).1 = Val r →
  ok r = true →
  (∀ c d p, Exited c d p ∈ new_events (run_code H lang code t) w → returncode p = 0%Z)
  ∧ ∃ c d p, run_call lang (new_events (run_code H lang code t) w) = Some c
             ∧ Exited c d p ∈ new_events (run_code H lang code t) w
             ∧ stdout r = p_stdout p ∧ stderr r = p_stderr p.
Proof.
  intros Hin.
  destruct (run_code_cases H lang code t w Hin)
    as [msg Hnp E | td f pc evs -> Hpc _ Ht S | td src cc rc evs Hnp Hcc Hrc _ Ht S].
  - rewrite E. by intros [= <-].
  - rewrite (new_events_app _ _ _ Ht).
    destruct (run_code H (lit "Python") code t w) as [r' w']. simpl in *.
    destruct S; intros Hr Hok; simplify_eq/=.
    apply Z.eqb_eq in Hok. split.
    + intros c d' p' He. set_unfold in He. destruct_or?; simplify_eq/=. done.
    + exists pc, d, p. unfold run_call. simpl. split; [done|]. split; [pick | done].
  - rewrite (new_events_app _ _ _ Ht), run_call_compiled by done.
    destruct (run_code H lang code t w) as [r' w']. simpl in *.
    destruct S; intros Hr Hok; simplify_eq/=.
    apply Z.eqb_eq in Hok. split.
    + intros c d0 p0 He. set_unfold in He. destruct_or?; simplify_eq/=; done.
    + exists rc, d', p'. simpl. split; [done|]. split; [pick | done].
Qed.

(** X11: a runner never has two processes at once: each process it starts
    has ended, or was killed, before the runner does anything else. *)
Theorem processes_run_one_at_a_time lang code t w :
  one_at_a_time (new_events (run_code H lang code t) w).
Proof.
  destruct (decide (lang ∈ LANGS)) as [Hin|Hout].
  - destruct (run_code_cases H lang code t w Hin)
      as [msg Hnp E | td f pc evs -> Hpc _ Ht S | td src cc rc evs Hnp Hcc Hrc _ Ht S].
    + by rewrite (new_events_unchanged _ _ _ E).
    + rewrite (new_events_app _ _ _ Ht).
      destruct (run_code H (lit "Python") code t w) as [r' w']. simpl in *.
      by destruct S.
    + rewrite (new_events_app _ _ _ Ht).
      destruct (run_code H lang code t w) as [r' w']. simpl in *.
      by destruct S.
  - by rewrite (new_events_unchanged _ _ _ (dispatch_other lang code t w Hout)).
Qed.

(** X12: the dispatcher fails to come back only when a compiler, started
    without a timeout, never ends; a Python request always comes back. *)
Theorem only_a_compiler_can_block lang code t w :
  lang ∈ LANGS →
  (run_code H lang code t w).1 = Never →
  ∃ c, compile_call lang (new_events (run_code H lang code t) w) = Some c
       ∧ last (new_events (run_code H lang code t) w) = Some (Started c)
       ∧ timeout c = None.
Proof.
  intros Hin.
  destruct (run_code_cases H lang code t w Hin)
    as [msg Hnp E | td f pc evs -> Hpc _ Ht S | td src cc rc evs Hnp Hcc Hrc _ Ht S].
  - by rewrite E.
  - destruct (run_code H (lit "Python") code t w) as [r' w']. simpl in *.
    by destruct S.
  - rewrite (new_events_app _ _ _ Ht), compile_call_compiled by done.
    destruct (run_code H lang code t w) as [r' w']. simpl in *.
    destruct S; intros Hr; simplify_eq/=. by exists cc.
Qed.

(** X13: in a returned result compile_time_s is the time the compiler call
    took, and 0 when no compiler was started; time_s is the time the
    run-phase call took, the timeout when that call was killed, and 0 when
    the run phase was not reached. *)
Theorem timings_are_measured lang code t w r :
  lang ∈ LANGS →
  (run_code H lang code t w).1 = Val r →
  match compile_call lang (new_events (run_code H lang code t) w) with
  | Some c => ∃ d p, Exited c d p ∈ new_events (run_code H lang code t) w
                     ∧ compile_time_s r = d
  | None => compile_time_s r = 0%Qc
  end
  ∧ match run_call lang (new_events (run_code H lang code t) w) with
    | Some c => (∃ d p, Exited c d p ∈ new_events (run_code H lang code t) w
                        ∧ time_s r = d)
                ∨ (Killed c ∈ new_events (run_code H lang code t) w
                   ∧ time_s r = Qc_of_Z t)
    | None => time_s r = 0%Qc
    end.
Proof.
  intros Hin.
  destruct (run_code_cases H lang code t w Hin)
    as [msg Hnp E | td f pc evs -> Hpc _ Ht S | td src cc rc evs Hnp Hcc Hrc _ Ht S].
  - rewrite (new_events_unchanged _ _ _ E), compile_call_compiled,
      run_call_compiled by done.
    rewrite E. by intros [= <-].
  - rewrite (new_events_app _ _ _ Ht).
    destruct (run_code H (lit "Python") code t w) as [r' w']. simpl in *.
    unfold compile_call, run_call.
    destruct S; intros Hr; simplify_eq/=; (split; [done|]).
    + right. split; [pick | done].
    + left. exists d, p. split; [pick | done].
  - rewrite (new_events_app _ _ _ Ht), compile_call_compiled, run_call_compiled by done.
    destruct (run_code H lang code t w) as [r' w']. simpl in *.
    destruct S; intros Hr; simplify_eq/=.
    + split; [exists d, p; split; [pick | done] | done].
    + split; [exists d, p; split; [pick | done]|].
      left. exists d', p'. split; [pick | done].
Qed.

(** X14: for a source text with a lone surrogate, which has no UTF-8
    encoding, the source file is created and left empty, and the
    UnicodeEncodeError of [write_text] reaches the caller: no process is
    started and the directory is removed. *)
Theorem unencodable_source_starts_nothing lang code t w :
  lang ∈ LANGS →
  tools_found H lang = true →
  name_refused H (source_name H lang code) = false →
  existsb is_surrogate code = true →
  (run_code H lang code t w).1 = Exc UnicodeEncodeError
  ∧ new_events (run_code H lang code t) w
    = [Mkdtemp (mkdtemp H w); WriteText (source_file H lang code w) [];
       Rmtree (mkdtemp H w)].
Proof.
  intros Hin Hw Hfit Hs.
  destruct (run_code_planned H lang code t w Hin Hw) as (evs & Ht & S).
  rewrite (new_events_app _ _ _ Ht).
  rewrite <- (path_name_source H lang code w Hin) in Hfit.
  destruct (run_code H lang code t w) as [r w']. simpl in *.
  case_bool_decide; destruct S; against_host.
Qed.

(** X15: [run_python] does not look for its interpreter first: when the
    interpreter cannot be started the OSError of [subprocess.run] reaches
    the caller, and nothing was started. *)
Theorem python_interpreter_not_started code t w :
  let f := path_join H (mkdtemp H w) (lit "main.py") in
  let pc := run_args [python_exe H; lit "-u"; f] None (Some t) in
  existsb is_surrogate code = false →
  behave H pc (<[f := code]> (files w)) = NotFound →
  (run_code H (lit "Python") code t w).1 = Exc (OSError (argv pc))
  ∧ started (new_events (run_code H (lit "Python") code t) w) = [].
Proof.
  intros f pc Hs Hb.
  destruct (run_code_planned H (lit "Python") code t w) as (evs & Ht & S);
    [unfold LANGS; set_solver | done |].
  rewrite (new_events_app _ _ _ Ht).
  pose proof (python_name_fits H code w) as Hfit.
  change (behave H (run_cmd H (lit "Python") code t w)
            (<[source_file H (lit "Python") code w := code]> (files w)) = NotFound) in Hb.
  rewrite bool_decide_eq_true_2 in S by done.
  destruct (run_code H (lit "Python") code t w) as [r w']. simpl in *.
  destruct S; against_host.
Qed.

End MoreRuns.

Section Frame.
Variable H : host.

#[local] Existing Instance below_dec.

Lemma lookup_put_files (fx : list (str * str)) (m : gmap str str) p :
  (∀ q x, (q, x) ∈ fx → q ≠ p) →
  foldl (λ m kv, <[kv.1 := kv.2]> m) m fx !! p = m !! p.
Proof.
  revert m. induction fx as [|[q x] fx IH]; intros m Hfx; [done|].
  simpl. rewrite IH.
  - apply lookup_insert_ne. apply (Hfx q x). apply list_elem_of_here.
  - intros q' x' Hin. apply (Hfx q' x'). by apply list_elem_of_further.
Qed.

Lemma lookup_outside (td : str) (m : gmap str str) (p : str) :
  ¬ below H td p → filter (λ kv : str * str, ¬ below H td kv.1) m !! p = m !! p.
Proof.
  intros Hp. destruct (m !! p) as [x|] eqn:E.
  - by apply map_lookup_filter_Some.
  - apply map_lookup_filter_None. by left.
Qed.

Lemma path_join_inside td name p : ¬ below H td p → path_join H td name ≠ p.
Proof. intros Hp <-. apply Hp, below_path_join. Qed.

Ltac frame_facts Hw :=
  repeat match goal with
         | E : behave H ?c ?fs = _ |- _ =>
             let Hx := fresh "Hfx" in
             pose proof (Hw c fs) as Hx; rewrite E in Hx; simpl in Hx; clear E
         end.

(** X16: a file outside the temporary directory that no started program
    writes is left as it was, whatever the language and the outcome. *)
Theorem files_elsewhere_untouched lang code t w p :
  (∀ c fs q x, (q, x) ∈ wrote_files (behave H c fs) → q ≠ p) →
  ¬ below H (mkdtemp H w) p →
  files (run_code H lang code t w).2 !! p = files w !! p.
Proof.
  intros Hw Hp. unfold run_code, run_python, run_cpp, run_java.
  repeat case_bool_decide; exec; frame_facts Hw;
    rewrite ?lookup_outside by done;
    rewrite ?lookup_put_files by done;
    rewrite ?lookup_insert_ne by (by apply path_join_inside); done.
Qed.

End Frame.

(** *** The runner properties at concrete requests *)

Lemma compiled_timeout_escapes_witness :
  (run_code looping_host (lit "C++") loop_cpp 1 empty_world).1
  = Exc (TimeoutExpired (argv (binary_call 1)) 1).
Proof.
  apply (compiled_timeout_escapes looping_host (lit "C++") loop_cpp 1 empty_world
           (binary_call 1)).
  - by left.
  - here.
Defined.

Lemma only_run_phase_is_killed_witness :
  run_call (lit "Java")
    (new_events (run_code looping_host (lit "Java") loop_java 1) empty_world)
  = Some (java_call "Spin" 1).
Proof.
  apply (only_run_phase_is_killed looping_host (lit "Java") loop_java 1 empty_world
           (java_call "Spin" 1)).
  - by right.
  - here.
Defined.

Lemma success_means_zero_exits_witness :
  ∃ r, (run_code working_host (lit "Java") hello_java 5 empty_world).1 = Val r
       ∧ (∀ c d p,
            Exited c d p
              ∈ new_events (run_code working_host (lit "Java") hello_java 5) empty_world →
            returncode p = 0%Z).
Proof.
  eexists. split; [vm_compute; reflexivity|].
  eapply (success_means_zero_exits working_host (lit "Java") hello_java 5 empty_world).
  - unfold LANGS. here.
  - vm_compute. reflexivity.
  - reflexivity.
Defined.

Lemma only_a_compiler_can_block_witness :
  ∃ c, compile_call (lit "C++")
         (new_events (run_code stuck_compiler_host (lit "C++") hello_cpp 1) empty_world)
       = Some c
       ∧ last (new_events (run_code stuck_compiler_host (lit "C++") hello_cpp 1)
                 empty_world) = Some (Started c)
       ∧ timeout c = None.
Proof.
  apply (only_a_compiler_can_block stuck_compiler_host (lit "C++") hello_cpp 1
           empty_world).
  - unfold LANGS. here.
  - vm_compute. reflexivity.
Defined.

Lemma timings_are_measured_witness :
  ∃ r, (run_code working_host (lit "C++") hello_cpp 5 empty_world).1 = Val r
       ∧ (∃ d p, Exited gpp_call d p
                   ∈ new_events (run_code working_host (lit "C++") hello_cpp 5)
                       empty_world
                 ∧ compile_time_s r = d).
Proof.
  eexists. split; [vm_compute; reflexivity|].
  eapply (timings_are_measured working_host (lit "C++") hello_cpp 5 empty_world).
  - unfold LANGS. here.
  - vm_compute. reflexivity.
Defined.

Lemma unencodable_source_starts_nothing_witness :
  (run_code working_host (lit "Python") [55296%N] 5 empty_world).1
  = Exc UnicodeEncodeError
  ∧ new_events (run_code working_host (lit "Python") [55296%N] 5) empty_world
    = [Mkdtemp (lit "/tmp/tmpk3"); WriteText (lit "/tmp/tmpk3/main.py") [];
       Rmtree (lit "/tmp/tmpk3")].
Proof.
  apply (unencodable_source_starts_nothing working_host (lit "Python") [55296%N] 5
           empty_world).
  - unfold LANGS. here.
  - reflexivity.
  - reflexivity.
  - reflexivity.
Defined.

Lemma python_interpreter_not_started_witness :
  (run_code rejecting_host (lit "Python") (lit "print(1)") 5 empty_world).1
  = Exc (OSError [lit "/usr/bin/python3"; lit "-u"; lit "/tmp/tmpk3/main.py"])
  ∧ started (new_events (run_code rejecting_host (lit "Python") (lit "print(1)") 5)
               empty_world) = [].
Proof.
  apply (python_interpreter_not_started rejecting_host (lit "print(1)") 5 empty_world).
  - reflexivity.
  - reflexivity.
Defined.

Lemma files_elsewhere_untouched_witness :
  files (run_code working_host (lit "C++") hello_cpp 5 notes_world).2
    !! lit "/home/u/notes.txt"
  = files notes_world !! lit "/home/u/notes.txt".
Proof.
  apply (files_elsewhere_untouched working_host (lit "C++") hello_cpp 5 notes_world).
  - intros c fs q x. unfold working_host, scripted. simpl.
    case_bool_decide; simpl; intros Hq; set_unfold in Hq; destruct_or?;
      simplify_eq/=; by vm_compute.
  - intros (c & rest & _ & E). vm_compute in E. discriminate.
Defined.

(** ** Keys, model calls and conversion *)

Section ConversionProofs.
Variable U : unicode_db.

(** X17: when the variable of the engine is set, the secrets have no part
    in a conversion: with any two secret stores the outcome is the same. *)
Theorem secrets_ignored_when_variable_set S m1 m2 src tgt code mdl engine v :
  environ S !! key_name engine = Some v →
  convert_code U (with_secrets S m1) src tgt code mdl engine
  = convert_code U (with_secrets S m2) src tgt code mdl engine.
Proof.
  unfold convert_code, key_name, call_openai, call_anthropic, key_from, get_secret.
  case_bool_decide; simpl; intros ->; done.
Qed.

(** X18: when no key can be found, a conversion raises the RuntimeError
    that names the variable; this is so in particular when the variable is
    set to the empty text, whatever the secrets hold. *)
Theorem missing_key_is_reported S src tgt code mdl engine :
  import_error S engine = None →
  no_key S (key_name engine) →
  convert_code U S src tgt code mdl engine
  = Raise (RuntimeError (key_name engine ++ lit " missing in .env at project root.")).
Proof.
  unfold convert_code, import_error, key_name, no_key, call_openai,
    call_anthropic, key_from, get_secret.
  case_bool_decide; intros -> Hno; simpl;
    (destruct (environ S !! _) as [v|];
     [subst v; done
     | destruct (secrets S) as [m|];
       [destruct Hno as [-> | ->]; done | done]]).
Qed.

Lemma key_from_with_services S o a name :
  key_from U (with_services S o a) name = key_from U S name.
Proof. done. Qed.

(** X19: a service is never asked with an empty key: what the services
    would answer to one has no part in a conversion. *)
Theorem empty_key_never_used S o a src tgt code mdl engine :
  (∀ key req, key ≠ [] →
     o key req = openai_create S key req ∧ a key req = anthropic_create S key req) →
  convert_code U (with_services S o a) src tgt code mdl engine
  = convert_code U S src tgt code mdl engine.
Proof.
  intros Hsame. unfold convert_code, call_openai, call_anthropic.
  rewrite !key_from_with_services.
  change (openai_import_error (with_services S o a)) with (openai_import_error S).
  change (anthropic_import_error (with_services S o a)) with (anthropic_import_error S).
  change (openai_create (with_services S o a)) with o.
  change (anthropic_create (with_services S o a)) with a.
  case_bool_decide.
  - destruct (openai_import_error S); [done|].
    destruct (key_from U S (lit "OPENAI_API_KEY")) as [[|c k]|]; try done.
    by destruct (Hsame (c :: k) {| system := system_prompt src tgt;
                                    user := user_prompt src tgt code;
                                    model := mdl |}) as [-> _].
  - destruct (anthropic_import_error S); [done|].
    destruct (key_from U S (lit "ANTHROPIC_API_KEY")) as [[|c k]|]; try done.
    by destruct (Hsame (c :: k) {| system := system_prompt src tgt;
                                    user := user_prompt src tgt code;
                                    model := mdl |}) as [_ ->].
Qed.

Lemma convert_code_strips S src tgt code mdl engine reply :
  convert_code U S src tgt code mdl engine = Ok reply → ∃ x, reply = str_strip U x.
Proof.
  unfold convert_code, call_openai, call_anthropic.
  case_bool_decide;
    repeat (match goal with
            | |- context [match ?x with _ => _ end] =>
                lazymatch x with
                | context [match _ with _ => _ end] => fail
                | _ => destruct x eqn:?
                end
            end; try done);
    intros [= <-]; eauto.
Qed.

(** X20: the text a conversion returns neither begins nor ends with white
    space, whichever service answered and whatever it answered. *)
Theorem reply_is_trimmed S src tgt code mdl engine reply :
  convert_code U S src tgt code mdl engine = Ok reply → trimmed U reply.
Proof.
  intros (x & ->)%convert_code_strips. apply str_strip_trimmed.
Qed.

End ConversionProofs.
(** ** The page *)

Lemma one_at_a_time_app l1 l2 :
  one_at_a_time l1 → (∀ c, last l1 ≠ Some (Started c)) → one_at_a_time l2 →
  one_at_a_time (l1 ++ l2).
Proof.
  intros H1 Hlast H2. remember (length l1) as n eqn:Hn.
  revert l1 Hn H1 Hlast. induction n as [n IH] using lt_wf_ind. intros l1 Hn H1 Hlast.
  destruct l1 as [|e l1]; [done|].
  destruct e; simpl in *; try done;
    try (apply (IH (length l1)); [lia | done | done |];
         intros c' Hc; destruct l1; [done|]; by apply (Hlast c')).
  destruct l1 as [|e' l1]; [by destruct (Hlast c)|].
  destruct e'; try done; destruct H1 as [-> H1]; (split; [done|]);
    simpl in *; (apply (IH (length l1)); [lia | done | done |]);
    intros c' Hc; destruct l1; try done; by apply (Hlast c').
Qed.

Section PageProofs.
Variable U : unicode_db.
Variable H : host.
Variable S : services.
Variable uni_lower : char → str.
Variable format_4f : Qc → str.

Lemma run_code_events lang code t w :
  ∃ evs, trace (run_code H lang code t w).2 = trace w ++ evs
         ∧ one_at_a_time evs
         ∧ ((run_code H lang code t w).1 ≠ Never → ∀ c, last evs ≠ Some (Started c)).
Proof.
  destruct (decide (lang ∈ LANGS)) as [Hin|Hout].
  - destruct (run_code_cases H lang code t w Hin)
      as [msg Hnp E | td f pc evs -> Hpc _ Ht S0 | td src cc rc evs Hnp Hcc Hrc _ Ht S0].
    + exists []. rewrite E, app_nil_r. done.
    + exists evs. split; [done|].
      destruct (run_code H (lit "Python") code t w) as [r' w']. simpl in *.
      by destruct S0.
    + exists evs. split; [done|].
      destruct (run_code H lang code t w) as [r' w']. simpl in *.
      by destruct S0.
  - exists []. by rewrite (dispatch_other H lang code t w Hout), app_nil_r.
Qed.

Lemma run_block pre lang code t (k : result → drawn) out w :
  (draw pre;; r ← perform (run_code H lang code t); draw (k r)) out w
  = match run_code H lang code t w with
    | (Val r, w') => (Val (), (out ++ pre) ++ k r, w')
    | (Exc e, w') => (Exc e, out ++ pre, w')
    | (Never, w') => (Never, out ++ pre, w')
    end.
Proof.
  unfold mbind, ui_bind, draw, perform.
  by destruct (run_code H lang code t w) as [[r|e|] w'].
Qed.

Lemma ui_then {A B} (m : ui A) (k : ui B) out w :
  (m;; k) out w
  = match m out w with
    | (Val _, out', w') => k out' w'
    | (Exc e, out', w') => (Exc e, out', w')
    | (Never, out', w') => (Never, out', w')
    end.
Proof. done. Qed.

(** X21: the page never has two processes at once either: with Run both,
    every process of the source run has ended before the target run
    starts anything. *)
Theorem page_runs_one_process_at_a_time enable_exec run_src run_tgt run_both
    src_lang tgt_lang src_code tgt_code t out w :
  one_at_a_time
    (ui_events (run_and_measure H format_4f enable_exec run_src run_tgt run_both
                  src_lang tgt_lang src_code tgt_code t) out w).
Proof.
  unfold run_and_measure, ui_events.
  destruct enable_exec; cbn [negb]; [|by rewrite drop_all].
  rewrite ui_then.
  destruct (run_src || run_both).
  - rewrite run_block.
    destruct (run_code_events src_lang src_code t w) as (e1 & Ht1 & H1 & Hc1).
    destruct (run_code H src_lang src_code t w) as [r1 w1]. cbn [fst snd] in *.
    destruct r1 as [r1|e|]; cbn [snd];
      [|by rewrite Ht1, drop_app_length..].
    destruct (run_tgt || run_both), tgt_code as [|a tc];
      try by (cbn; rewrite Ht1, drop_app_length).
    rewrite run_block.
    destruct (run_code_events tgt_lang (a :: tc) t w1) as (e2 & Ht2 & H2 & _).
    destruct (run_code H tgt_lang (a :: tc) t w1) as [r2 w2]. cbn [fst snd] in *.
    assert (trace w2 = trace w ++ e1 ++ e2) as Ht by (by rewrite Ht2, Ht1, <- app_assoc).
    assert (one_at_a_time (e1 ++ e2)) by (apply one_at_a_time_app; auto).
    destruct r2; cbn [snd]; by rewrite Ht, drop_app_length.
  - destruct (run_tgt || run_both), tgt_code as [|a tc];
      try by (cbn; rewrite drop_all).
    cbn [mret ui_ret]. rewrite run_block.
    destruct (run_code_events tgt_lang (a :: tc) t w) as (e2 & Ht2 & H2 & _).
    destruct (run_code H tgt_lang (a :: tc) t w) as [r2 w2]. cbn [fst snd] in *.
    destruct r2; cbn [snd]; by rewrite Ht2, drop_app_length.
Qed.

(** X22: when the run-phase process of a C++ or Java source is killed at
    the timeout, the handler itself ends with the TimeoutExpired: only
    the spinner was drawn, no result is shown, and with Run both the
    target is not run. *)
Theorem source_timeout_stops_page run_src run_tgt run_both
    src_lang tgt_lang src_code tgt_code t out w c :
  src_lang = lit "C++" ∨ src_lang = lit "Java" →
  run_src || run_both = true →
  Killed c ∈ new_events (run_code H src_lang src_code t) w →
  run_and_measure H format_4f true run_src run_tgt run_both
    src_lang tgt_lang src_code tgt_code t out w
  = (Exc (TimeoutExpired (argv c) t),
     out ++ [(Main, st_spinner (lit "Running " ++ src_lang ++ [8230%N]))],
     (run_code H src_lang src_code t w).2).
Proof.
  intros Hl Hb Hk. unfold run_and_measure. cbn [negb].
  rewrite ui_then, Hb, run_block.
  assert ((run_code H src_lang src_code t w).1 = Exc (TimeoutExpired (argv c) t)) as E.
  { destruct (compiled_langs src_lang Hl) as [Hin Hnp]. revert Hk.
    destruct (run_code_cases H src_lang src_code t w Hin)
      as [msg _ E | ? ? ? ? Hp | td src cc rc evs _ Hcc Hrc _ Ht S0]; [| done |].
    - rewrite (new_events_unchanged _ _ _ E). by intros ?%elem_of_nil.
    - rewrite (new_events_app _ _ _ Ht).
      destruct (run_code H src_lang src_code t w) as [r w']. simpl in *.
      destruct S0; intros He; set_unfold in He; destruct_or?; simplify_eq/=; done. }
  destruct (run_code H src_lang src_code t w) as [r1 w1]. cbn [fst snd] in *.
  by rewrite E.
Qed.

(** X23: no program is run, and nothing else is done to the machine,
    unless running is allowed and asked for: with the box unticked, or
    with no button pressed, or with Run of the target before any
    conversion, the handler only draws. *)
Theorem nothing_runs_unless_asked enable_exec run_src run_tgt run_both
    src_lang tgt_lang src_code tgt_code t out w :
  enable_exec = false
  ∨ (run_src = false ∧ run_both = false ∧ (run_tgt = false ∨ tgt_code = [])) →
  ∃ out', run_and_measure H format_4f enable_exec run_src run_tgt run_both
            src_lang tgt_lang src_code tgt_code t out w
          = (Val (), out', w).
Proof.
  unfold run_and_measure.
  intros [-> | (-> & -> & Ht)]; [by eexists|].
  destruct enable_exec; cbn [negb orb]; [|by eexists].
  rewrite ui_then. cbn [mret ui_ret].
  destruct Ht as [-> | ->]; cbn [orb]; [by eexists|].
  destruct (run_tgt || false); by eexists.
Qed.

(** X24: a reply without a fence marker becomes the target code as it is:
    the conversions already strip it, and extraction changes nothing. *)
Theorem unfenced_reply_is_target src_lang tgt_lang src_code mdl engine old reply :
  convert_code U S src_lang tgt_lang src_code mdl engine = Ok reply →
  ¬ occurs marker reply →
  on_convert U S uni_lower src_lang tgt_lang src_code mdl engine old
  = (reply,
     [(Placeholder, st_code reply (Some (highlight_language uni_lower tgt_lang)))]).
Proof.
  intros Hc Hno. unfold on_convert. rewrite Hc.
  destruct (convert_code_strips U _ _ _ _ _ _ _ Hc) as [x Hx].
  rewrite (extract_code_clean U reply); [done | |].
  - rewrite Hx. apply str_strip_trimmed.
  - intros pre s b -> (b' & c' & ->)%fenced_occurs. apply Hno.
    by exists pre, (b' ++ marker ++ c').
Qed.

Lemma str_lower_app (a b : str) :
  str_lower uni_lower (a ++ b) = str_lower uni_lower a ++ str_lower uni_lower b.
Proof. apply flat_map_app. Qed.

Lemma str_lower_ascii x :
  Forall (λ c, (c < 128)%N ∧ c ≠ 43%N) x →
  Forall (λ c, c ≠ 43%N) (str_lower uni_lower x)
  ∧ str_lower uni_lower x
    = map (λ c, if Re.in_range 65 90 c then (c + 32)%N else c) x.
Proof.
  induction 1 as [|c x [Hc Hp] _ [IH1 IH2]]; [done|].
  change (str_lower uni_lower (c :: x))
    with ((if Re.in_range 65 90 c then [(c + 32)%N]
           else if (c <? 128)%N then [c] else uni_lower c) ++ str_lower uni_lower x).
  rewrite IH2 in *. cbn [map].
  destruct (Re.in_range 65 90 c) eqn:E.
  - split; [|done]. constructor; [|done].
    unfold Re.in_range in E. apply andb_true_iff in E as [?%N.leb_le ?%N.leb_le]. lia.
  - apply N.ltb_lt in Hc as ->. split; [|done]. by constructor.
Qed.

Lemma replace_plus_plus y :
  Forall (λ c, c ≠ 43%N) y →
  str_replace (lit "++") (lit "cpp") (y ++ lit "++") = y ++ lit "cpp".
Proof.
  unfold str_replace. induction 1 as [|c y Hc _ IH]; [done|].
  cbn [app replace_from]. rewrite IH.
  change (lit "++") with [43%N; 43%N]. cbn [strip].
  by destruct (N.eqb_spec 43 c) as [<-|].
Qed.

(** X25: the language handed to the highlighter is the lower-cased name
    with cpp written for ++ ; for the name C++ of the list this is ccpp. *)
Theorem highlight_language_plus_plus x :
  Forall (λ c, (c < 128)%N ∧ c ≠ 43%N) x →
  highlight_language uni_lower (x ++ lit "++")
  = map (λ c, if Re.in_range 65 90 c then (c + 32)%N else c) x ++ lit "cpp".
Proof.
  intros Hx. destruct (str_lower_ascii x Hx) as [Hp Hl].
  unfold highlight_language. rewrite str_lower_app.
  change (str_lower uni_lower (lit "++")) with (lit "++").
  rewrite replace_plus_plus by done. by rewrite Hl.
Qed.

End PageProofs.

(** *** Conversion and the page at concrete requests *)

Lemma no_backtick_no_marker s :
  forallb (λ c, negb (c =? 96)%N) s = true → ¬ occurs marker s.
Proof.
  intros Hs (a & b & ->). rewrite !forallb_app in Hs.
  apply andb_true_iff in Hs as [_ Hs]. apply andb_true_iff in Hs as [Hs _].
  by vm_compute in Hs.
Qed.

Lemma secrets_ignored_when_variable_set_witness :
  convert_code ascii_only
    (with_secrets (sample_services {[lit "OPENAI_API_KEY" := lit "sk-env"]}) None)
    (lit "Python") (lit "C++") (lit "print(1)") (lit "gpt-4o") (lit "OpenAI")
  = convert_code ascii_only
      (with_secrets (sample_services {[lit "OPENAI_API_KEY" := lit "sk-env"]})
         (Some {[lit "OPENAI_API_KEY" := lit "sk-other"]}))
      (lit "Python") (lit "C++") (lit "print(1)") (lit "gpt-4o") (lit "OpenAI").
Proof.
  apply (secrets_ignored_when_variable_set ascii_only _ _ _ _ _ _ _ _ (lit "sk-env")).
  vm_compute. reflexivity.
Defined.

Lemma missing_key_is_reported_witness :
  convert_code ascii_only (sample_services {[lit "OPENAI_API_KEY" := []]})
    (lit "Python") (lit "C++") (lit "print(1)") (lit "gpt-4o") (lit "OpenAI")
  = Raise (RuntimeError (lit "OPENAI_API_KEY" ++ lit " missing in .env at project root.")).
Proof.
  apply (missing_key_is_reported ascii_only
           (sample_services {[lit "OPENAI_API_KEY" := []]})
           (lit "Python") (lit "C++") (lit "print(1)") (lit "gpt-4o") (lit "OpenAI")).
  - reflexivity.
  - vm_compute. reflexivity.
Defined.

Lemma empty_key_never_used_witness :
  convert_code ascii_only
    (with_services (sample_services ∅)
       (λ key req, match key with
                   | [] => Raise (ApiError (lit "no key"))
                   | _ => openai_create (sample_services ∅) key req
                   end)
       (λ key req, match key with
                   | [] => Raise (ApiError (lit "no key"))
                   | _ => anthropic_create (sample_services ∅) key req
                   end))
    (lit "Python") (lit "C++") (lit "print(1)") (lit "gpt-4o") (lit "OpenAI")
  = convert_code ascii_only (sample_services ∅)
      (lit "Python") (lit "C++") (lit "print(1)") (lit "gpt-4o") (lit "OpenAI").
Proof.
  apply (empty_key_never_used ascii_only (sample_services ∅)).
  intros [|c key] req Hkey; [done|]. split; reflexivity.
Defined.

Lemma reply_is_trimmed_witness :
  ∃ reply,
    convert_code ascii_only (sample_services ∅)
      (lit "Python") (lit "C++") (lit "print(1)") (lit "gpt-4o") (lit "OpenAI")
    = Ok reply
    ∧ trimmed ascii_only reply.
Proof.
  exists (lit "int main(){}"). split; [vm_compute; reflexivity|].
  apply (reply_is_trimmed ascii_only (sample_services ∅)
           (lit "Python") (lit "C++") (lit "print(1)") (lit "gpt-4o") (lit "OpenAI")).
  vm_compute. reflexivity.
Defined.

Lemma source_timeout_stops_page_witness :
  run_and_measure looping_host (λ _, []) true false false true
    (lit "C++") (lit "Python") loop_cpp (lit "print(1)") 1 [] empty_world
  = (Exc (TimeoutExpired (argv (binary_call 1)) 1),
     [] ++ [(Main, st_spinner (lit "Running " ++ lit "C++" ++ [8230%N]))],
     (run_code looping_host (lit "C++") loop_cpp 1 empty_world).2).
Proof.
  apply (source_timeout_stops_page looping_host (λ _, []) false false true
           (lit "C++") (lit "Python") loop_cpp (lit "print(1)") 1 [] empty_world
           (binary_call 1)).
  - by left.
  - reflexivity.
  - here.
Defined.

Lemma nothing_runs_unless_asked_witness :
  ∃ out', run_and_measure working_host (λ _, []) true false true false
            (lit "Python") (lit "C++") (lit "print(1)") [] 5 [] empty_world
          = (Val (), out', empty_world).
Proof.
  apply (nothing_runs_unless_asked working_host (λ _, []) true false true false).
  right. split; [reflexivity|]. split; [reflexivity|]. by right.
Defined.

Lemma unfenced_reply_is_target_witness :
  on_convert ascii_only (sample_services ∅) (λ c, [c])
    (lit "Python") (lit "C++") (lit "print(1)") (lit "gpt-4o") (lit "OpenAI") []
  = (lit "int main(){}",
     [(Placeholder,
       st_code (lit "int main(){}") (Some (highlight_language (λ c, [c]) (lit "C++"))))]).
Proof.
  apply (unfenced_reply_is_target ascii_only (sample_services ∅) (λ c, [c])).
  - vm_compute. reflexivity.
  - apply no_backtick_no_marker. vm_compute. reflexivity.
Defined.

Lemma highlight_language_plus_plus_witness :
  highlight_language (λ c, [c]) (lit "C++") = lit "ccpp".
Proof.
  apply (highlight_language_plus_plus (λ c, [c]) (lit "C")).
  repeat constructor; vm_compute; congruence.
Defined.
